(** * Gibbs sampler for Bayesian simple linear regression

    A shallow embedding of the notebook's computational core
    ([sample_beta_0], [sample_beta_1], [sample_tau], [gibbs]) and of the
    earlier draft of [sample_beta_0] kept under [gibbs/].

    Modelling conventions.
    - The notebook runs on Python 3: [/] is true division and [N / 2] is
      not truncated.
    - NumPy's [float64] scalars are idealised as real numbers ([R]); rounding,
      overflow and NaN are outside the model.  Statements that depend on
      the sign of a quantity carry the positivity hypotheses under which
      the idealisation is faithful.
    - Module [F64] repeats the samplers and the driver on binary64
      floating-point numbers (Rocq's primitive floats), where they can be
      run; it is used where overflow or rounding decides a statement.
    - A one-dimensional [ndarray] is a [list R]; array arithmetic follows
      NumPy broadcasting on one axis (equal lengths, or one side of length 1,
      otherwise [ValueError]).
    - A Python [dict] with string keys is a [gmap string R]; a missing key
      raises [KeyError].
    - [np.random] is a process-wide generator: its state is one component
      of the interpreter state threaded through every call.  The
      generator itself is external to the repository and is a parameter
      ([RandomSource]) of the whole development. *)

From Stdlib Require Import Floats.PrimFloat.
From Stdlib Require Import Reals Lra Lia ZArith.
From stdpp Require Import base list strings gmap.

Local Open Scope R_scope.

(** ** Outcomes of a Python call *)

Inductive exn : Type :=
| AssertionError
| TypeError
| ValueError
| KeyError (key : string).

Inductive outcome (A : Type) : Type :=
| Ok (a : A)
| Raise (e : exn).
Arguments Ok {A} a.
Arguments Raise {A} e.

Definition outcome_map {A B : Type} (f : A -> B) (o : outcome A) : outcome B :=
  match o with
  | Ok a => Ok (f a)
  | Raise e => Raise e
  end.

(** ** The external random generator

    [normal loc scale] is [np.random.normal(loc, scale)] and
    [gamma shape scale] is [np.random.gamma(shape, scale)] on scalars: the
    second argument of [gamma] is a SCALE.  Each call consumes generator
    state and either returns a variate or raises. *)

Record RandomSource : Type := {
  rng : Type;
  normal : R -> R -> rng -> outcome R * rng;
  gamma : R -> R -> rng -> outcome R * rng
}.

(** What the development assumes about NumPy's generator when it needs a
    draw to be produced: valid parameters give a variate, and Gamma
    variates are strictly positive. *)
Record numpy_contract (rs : RandomSource) : Prop := {
  normal_returns : forall loc scale s,
    0 < scale -> exists v s', normal rs loc scale s = (Ok v, s');
  gamma_returns : forall shape scale s,
    0 < shape -> 0 < scale ->
    exists v s', gamma rs shape scale s = (Ok v, s') /\ 0 < v
}.

(** Interpreter state: the generator state behind [np.random], and the
    rest of the process (module-level globals of the notebook). *)
Record world (rs : RandomSource) (env : Type) : Type := World {
  np_random : rng rs;
  globals : env
}.
Arguments World {rs env} _ _.
Arguments np_random {rs env} _.
Arguments globals {rs env} _.

(** ** The monad of Python computations *)

Definition py (rs : RandomSource) (env : Type) (A : Type) : Type :=
  world rs env -> outcome A * world rs env.

Section Monad.
Context {rs : RandomSource} {env : Type}.

Definition ret {A : Type} (a : A) : py rs env A := fun w => (Ok a, w).

Definition raise {A : Type} (e : exn) : py rs env A := fun w => (Raise e, w).

Definition bind {A B : Type} (c : py rs env A) (k : A -> py rs env B)
  : py rs env B :=
  fun w => match c w with
           | (Ok a, w') => k a w'
           | (Raise e, w') => (Raise e, w')
           end.

Definition lift {A : Type} (o : outcome A) : py rs env A := fun w => (o, w).

(** [assert b] *)
Definition assert (b : bool) : py rs env unit :=
  if b then ret tt else raise AssertionError.

(** [d[key]] on a dict *)
Definition getitem (d : gmap string R) (key : string) : py rs env R :=
  match d !! key with
  | Some v => ret v
  | None => raise (KeyError key)
  end.

(** [for it in its: s = body(it, s)] with the loop-carried variables [s] *)
Fixpoint for_loop {S : Type} (body : nat -> S -> py rs env S)
    (its : list nat) (s : S) : py rs env S :=
  match its with
  | [] => ret s
  | it :: rest => bind (body it s) (for_loop body rest)
  end.

(** [np.random.normal(loc, scale)] and [np.random.gamma(shape, scale)]:
    only the generator component of the world is read and written. *)
Definition np_random_normal (loc scale : R) : py rs env R :=
  fun w => let (o, s) := normal rs loc scale (np_random w) in
           (o, World s (globals w)).

Definition np_random_gamma (shape scale : R) : py rs env R :=
  fun w => let (o, s) := gamma rs shape scale (np_random w) in
           (o, World s (globals w)).
End Monad.

(** stdpp's monadic notation ([x ← c; k] and [c;; k]) is used for [py]. *)
#[global] Instance py_ret {rs env} : MRet (py rs env) := @ret rs env.
#[global] Instance py_bind {rs env} : MBind (py rs env) :=
  fun A B k c => bind c k.

(** ** NumPy arrays *)

Definition ndarray : Type := list R.

(** Elementwise binary operation of two one-dimensional arrays. *)
Definition broadcast {A B C : Type} (f : A -> B -> C) (a : list A) (b : list B)
  : outcome (list C) :=
  if (length a =? length b)%nat then Ok (zip_with f a b)
  else match a, b with
       | [a0], _ => Ok (f a0 <$> b)
       | _, [b0] => Ok ((fun ai => f ai b0) <$> a)
       | _, _ => Raise ValueError
       end.

(** [np.sum] *)
Definition np_sum (a : ndarray) : R := foldr Rplus 0 a.

(** [range(n)] *)
Definition range (n : nat) : list nat := seq 0 n.

(** One row of the trace matrix: [(beta_0, beta_1, tau)]. *)
Definition row : Type := (R * R * R)%type.

(** [np.zeros((iters, 3))]: a negative dimension is rejected. *)
Definition np_zeros {rs env} (iters : Z) : py rs env (list row) :=
  if (iters <? 0)%Z then raise ValueError
  else ret (replicate (Z.to_nat iters) (0, 0, 0)).

(** ** The samplers and the driver (notebook cells 38-42) *)

Section Sampler.
Context {rs : RandomSource} {env : Type}.

Definition sample_beta_0 (y x : ndarray) (beta_1 tau mu_0 tau_0 : R)
  : py rs env R :=
  let N := length y in
  assert (length x =? N)%nat;;
  let precision := tau_0 + tau * INR N in
  d ← lift (broadcast Rminus y (Rmult beta_1 <$> x));
  let mean := tau_0 * mu_0 + tau * np_sum d in
  let mean := mean / precision in
  np_random_normal mean (1 / sqrt precision).

Definition sample_beta_1 (y x : ndarray) (beta_0 tau mu_1 tau_1 : R)
  : py rs env R :=
  let N := length y in
  assert (length x =? N)%nat;;
  xx ← lift (broadcast Rmult x x);
  let precision := tau_1 + tau * np_sum xx in
  d ← lift (broadcast Rmult ((fun yi => yi - beta_0) <$> y) x);
  let mean := tau_1 * mu_1 + tau * np_sum d in
  let mean := mean / precision in
  np_random_normal mean (1 / sqrt precision).

Definition sample_tau (y x : ndarray) (beta_0 beta_1 alpha beta : R)
  : py rs env R :=
  let N := length y in
  let alpha_new := alpha + INR N / 2 in
  resid ← lift (broadcast Rminus ((fun yi => yi - beta_0) <$> y)
                                  (Rmult beta_1 <$> x));
  rr ← lift (broadcast Rmult resid resid);
  let beta_new := beta + np_sum rr / 2 in
  np_random_gamma alpha_new (1 / beta_new).

(** Loop-carried variables of [gibbs]: [beta_0], [beta_1], [tau], [trace]. *)
Definition gibbs_body (y x : ndarray) (hypers : gmap string R)
    (it : nat) (s : R * R * R * list row) : py rs env (R * R * R * list row) :=
  let '(beta_0, beta_1, tau, trace) := s in
  mu_0 ← getitem hypers "mu_0";
  tau_0 ← getitem hypers "tau_0";
  beta_0 ← sample_beta_0 y x beta_1 tau mu_0 tau_0;
  mu_1 ← getitem hypers "mu_1";
  tau_1 ← getitem hypers "tau_1";
  beta_1 ← sample_beta_1 y x beta_0 tau mu_1 tau_1;
  alpha ← getitem hypers "alpha";
  beta ← getitem hypers "beta";
  tau ← sample_tau y x beta_0 beta_1 alpha beta;
  ret (beta_0, beta_1, tau, <[it := (beta_0, beta_1, tau)]> trace).

Definition gibbs (y x : ndarray) (iters : Z) (init hypers : gmap string R)
  : py rs env (list row) :=
  assert (length y =? length x)%nat;;
  beta_0 ← getitem init "beta_0";
  beta_1 ← getitem init "beta_1";
  tau ← getitem init "tau";
  trace ← np_zeros iters;
  s ← for_loop (gibbs_body y x hypers) (range (Z.to_nat iters))
                (beta_0, beta_1, tau, trace);
  ret (snd s).
End Sampler.

(** ** The sampling laws as the specification writes them *)

(** [a_i], the i-th observation (0-based). *)
Definition item (a : ndarray) (i : nat) : R := nth i a 0.

(** Sum over [i = 0 .. n-1] of [f i]. *)
Fixpoint sum_upto (n : nat) (f : nat -> R) : R :=
  match n with
  | O => 0
  | S n' => sum_upto n' f + f n'
  end.

(** Intercept conditional (specification section 4.1). *)
Definition intercept_precision (y : ndarray) (precision tau_0 : R) : R :=
  tau_0 + precision * INR (length y).

Definition intercept_mean (y x : ndarray) (slope precision mu_0 tau_0 : R) : R :=
  (tau_0 * mu_0
   + precision * sum_upto (length y) (fun i => item y i - slope * item x i))
  / intercept_precision y precision tau_0.

(** Slope conditional (section 4.2). *)
Definition slope_precision (y x : ndarray) (precision tau_1 : R) : R :=
  tau_1 + precision * sum_upto (length y) (fun i => item x i ^ 2).

Definition slope_mean (y x : ndarray) (intercept precision mu_1 tau_1 : R) : R :=
  (tau_1 * mu_1
   + precision
     * sum_upto (length y) (fun i => (item y i - intercept) * item x i))
  / slope_precision y x precision tau_1.

(** Precision conditional (section 4.3). *)
Definition posterior_shape (y : ndarray) (alpha : R) : R :=
  alpha + INR (length y) / 2.

Definition residual_sum_of_squares (y x : ndarray) (intercept slope : R) : R :=
  sum_upto (length y) (fun i => (item y i - intercept - slope * item x i) ^ 2).

Definition posterior_rate (y x : ndarray) (intercept slope beta : R) : R :=
  beta + residual_sum_of_squares y x intercept slope / 2.

(** A Gamma draw named by shape and RATE, obtained from the shape/scale
    generator. *)
Definition gamma_shape_rate {rs env} (shape rate : R) : py rs env R :=
  np_random_gamma shape (1 / rate).

(** A Normal draw named by mean and PRECISION. *)
Definition normal_mean_precision {rs env} (mean precision : R) : py rs env R :=
  np_random_normal mean (1 / sqrt precision).

(** Configuration of a run, with the field names of the specification. *)
Record hyperparameters : Type := {
  prior_mean_intercept : R;
  prior_precision_intercept : R;
  prior_mean_slope : R;
  prior_precision_slope : R;
  shape : R;
  rate : R
}.

(** The [hypers] dict holds the six hyperparameters [h]. *)
Definition holds_hypers (hypers : gmap string R) (h : hyperparameters) : Prop :=
  hypers !! "mu_0" = Some (prior_mean_intercept h)
  /\ hypers !! "tau_0" = Some (prior_precision_intercept h)
  /\ hypers !! "mu_1" = Some (prior_mean_slope h)
  /\ hypers !! "tau_1" = Some (prior_precision_slope h)
  /\ hypers !! "alpha" = Some (shape h)
  /\ hypers !! "beta" = Some (rate h).

(** The [init] dict holds the starting state [s]. *)
Definition holds_init (init : gmap string R) (s : row) : Prop :=
  init !! "beta_0" = Some s.1.1
  /\ init !! "beta_1" = Some s.1.2
  /\ init !! "tau" = Some s.2.

(** Precisions and the Gamma parameters must be positive (section 3). *)
Definition valid_hypers (h : hyperparameters) : Prop :=
  0 < prior_precision_intercept h
  /\ 0 < prior_precision_slope h
  /\ 0 < shape h
  /\ 0 < rate h.

(** One transition of the driver's state machine (section 4.4): intercept
    from the previous slope and precision, slope from the new intercept
    and the previous precision, precision from both new values. *)
Definition transition {rs env} (y x : ndarray) (h : hyperparameters) (s : row)
  : py rs env row :=
  let previous_slope := s.1.2 in
  let previous_precision := s.2 in
  intercept ← sample_beta_0 y x previous_slope previous_precision
                (prior_mean_intercept h) (prior_precision_intercept h);
  slope ← sample_beta_1 y x intercept previous_precision
            (prior_mean_slope h) (prior_precision_slope h);
  precision ← sample_tau y x intercept slope (shape h) (rate h);
  ret (intercept, slope, precision).

(** [k] transitions from [s], collecting the states in generation order. *)
Fixpoint run_chain {rs env} (k : nat) (y x : ndarray) (h : hyperparameters)
    (s : row) : py rs env (list row) :=
  match k with
  | O => ret []
  | S k' =>
      s' ← transition y x h s;
      rest ← run_chain k' y x h s';
      ret (s' :: rest)
  end.

(** Writing [rows] into [trace] at indices [i], [i+1], ... *)
Fixpoint fill (i : nat) (rows trace : list row) : list row :=
  match rows with
  | [] => trace
  | r :: rows' => fill (S i) rows' (<[i := r]> trace)
  end.


(** ** The earlier draft of the intercept sampler
    ([gibbs/gibbs_sampling_for_linear_regression.ipynb], cell 14) *)

Module Draft.
(** The draft applies [len] to its prior arguments, so their dynamic
    type matters: a Python float or a one-dimensional array. *)
Inductive value : Type :=
| Float (r : R)
| Array (a : ndarray).

(** [len(v)]: a float has no length. *)
Definition len {rs env} (v : value) : py rs env nat :=
  match v with
  | Float _ => raise TypeError
  | Array a => ret (length a)
  end.

(** Arithmetic on values, with broadcasting. *)
Definition binop (f : R -> R -> R) (u v : value) : outcome value :=
  match u, v with
  | Float a, Float b => Ok (Float (f a b))
  | Float a, Array b => Ok (Array (f a <$> b))
  | Array a, Float b => Ok (Array ((fun ai => f ai b) <$> a))
  | Array a, Array b => outcome_map Array (broadcast f a b)
  end.

Definition unop (f : R -> R) (v : value) : value :=
  match v with
  | Float a => Float (f a)
  | Array a => Array (f <$> a)
  end.

(** [np.random.normal] with array arguments draws one variate per
    element, in order, from the same generator. *)
Fixpoint draws {rs env} (ps : list (R * R)) : py rs env (list R) :=
  match ps with
  | [] => ret []
  | p :: ps' =>
      v ← np_random_normal p.1 p.2;
      vs ← draws ps';
      ret (v :: vs)
  end.

Definition np_random_normal_v {rs env} (loc scale : value) : py rs env value :=
  match loc, scale with
  | Float m, Float s => v ← np_random_normal m s; ret (Float v)
  | Float m, Array s => vs ← draws (pair m <$> s); ret (Array vs)
  | Array m, Float s => vs ← draws ((fun mi => (mi, s)) <$> m); ret (Array vs)
  | Array m, Array s =>
      ps ← lift (broadcast pair m s); vs ← draws ps; ret (Array vs)
  end.

(** Note the parameter order: [tau_0] before [mu_0].  [mean /= precision]
    is reached only with one-element arrays on both sides, where the
    in-place division is the elementwise one. *)
Definition sample_beta_0 {rs env} (y x : ndarray) (beta_1 tau : R)
    (tau_0 mu_0 : value) : py rs env value :=
  let N := length y in
  assert (length x =? N)%nat;;
  n ← len tau_0;
  assert (n =? 1)%nat;;
  n ← len mu_0;
  assert (n =? 1)%nat;;
  precision ← lift (binop Rplus tau_0 (Float (tau * INR N)));
  t ← lift (binop Rmult tau_0 mu_0);
  d ← lift (broadcast Rminus y (Rmult beta_1 <$> x));
  mean ← lift (binop Rplus t (Float (tau * np_sum d)));
  mean ← lift (binop Rdiv mean precision);
  np_random_normal_v mean (unop (fun r => 1 / r) (unop sqrt precision)).
End Draft.

(** ** The notebook's own configuration (cell 42) *)

Definition init : gmap string R :=
  <["beta_0" := 0]> (<["beta_1" := 0]> (<["tau" := 2]> ∅)).

Definition hypers : gmap string R :=
  <["mu_0" := 0]> (<["tau_0" := 1]> (<["mu_1" := 0]> (<["tau_1" := 1]>
    (<["alpha" := 2]> (<["beta" := 1]> ∅))))).

Definition notebook_hyperparameters : hyperparameters := {|
  prior_mean_intercept := 0;
  prior_precision_intercept := 1;
  prior_mean_slope := 0;
  prior_precision_slope := 1;
  shape := 2;
  rate := 1
|}.

(** ** A stand-in generator for worked examples

    It answers every request with the mean of the requested distribution,
    counts the draws in its state, and rejects non-positive scale or
    shape (the strictest validation any NumPy release applies). *)
Definition mean_source : RandomSource := {|
  rng := nat;
  normal := fun loc scale n =>
    if Rlt_dec 0 scale then (Ok loc, S n) else (Raise ValueError, n);
  gamma := fun shape scale n =>
    if Rlt_dec 0 shape then
      if Rlt_dec 0 scale then (Ok (shape * scale), S n)
      else (Raise ValueError, n)
    else (Raise ValueError, n)
|}.

(** A world over the stand-in generator after [n] draws. *)
Definition after_draws (n : nat) : world mean_source unit :=
  @World mean_source unit n tt.

(** ** Auxiliary notions for statements about the driver *)

(** The first of [keys] that the dict [d] lacks. *)
Fixpoint first_missing (d : gmap string R) (keys : list string)
  : option string :=
  match keys with
  | [] => None
  | k :: keys' =>
      match d !! k with
      | None => Some k
      | Some _ => first_missing d keys'
      end
  end.

(** A request made to the generator. *)
Inductive call : Type :=
| CallNormal (loc scale : R)
| CallGamma (shape scale : R).

(** A generator that answers as [rs] does and records every request. *)
Definition logged (rs : RandomSource) : RandomSource := {|
  rng := (rng rs * list call)%type;
  normal := fun loc scale s =>
    let (o, s') := normal rs loc scale s.1 in
    (o, (s', s.2 ++ [CallNormal loc scale]));
  gamma := fun k theta s =>
    let (o, s') := gamma rs k theta s.1 in
    (o, (s', s.2 ++ [CallGamma k theta]))
|}.

(** A world over the recording generator: the state of [rs], the requests
    recorded so far and the rest of the process. *)
Definition logged_world {rs env} (s : rng rs) (log : list call) (g : env)
  : world (logged rs) env :=
  @World (logged rs) env (s, log) g.

(** The three requests of the transition from [prev] to [new]. *)
Definition transition_calls (y x : ndarray) (h : hyperparameters)
    (prev new : row) : list call :=
  [ CallNormal
      (intercept_mean y x prev.1.2 prev.2
         (prior_mean_intercept h) (prior_precision_intercept h))
      (1 / sqrt (intercept_precision y prev.2 (prior_precision_intercept h)));
    CallNormal
      (slope_mean y x new.1.1 prev.2
         (prior_mean_slope h) (prior_precision_slope h))
      (1 / sqrt (slope_precision y x prev.2 (prior_precision_slope h)));
    CallGamma (posterior_shape y (shape h))
      (1 / posterior_rate y x new.1.1 new.1.2 (rate h)) ].

(** The requests that produce [trace] from the state [prev]. *)
Fixpoint chain_calls (y x : ndarray) (h : hyperparameters) (prev : row)
    (trace : list row) : list call :=
  match trace with
  | [] => []
  | r :: rest => transition_calls y x h prev r ++ chain_calls y x h r rest
  end.

(** ** The notebook's script: synthetic data (cell 41) and the run (cell 44) *)

(** [np.random.uniform], the one generator primitive the samplers do not
    use. *)
Record UniformSource (rs : RandomSource) : Type := {
  uniform : R -> R -> rng rs -> outcome R * rng rs
}.
Arguments uniform {rs} _ _ _ _.

Definition np_random_uniform {rs env} (us : UniformSource rs) (low high : R)
  : py rs env R :=
  fun w => let (o, s) := uniform us low high (np_random w) in
           (o, World s (globals w)).

(** [np.random.uniform(low, high, size=n)]: [n] variates in order. *)
Fixpoint np_random_uniform_size {rs env} (us : UniformSource rs)
    (low high : R) (size : nat) : py rs env ndarray :=
  match size with
  | O => ret []
  | S n =>
      v ← np_random_uniform us low high;
      vs ← np_random_uniform_size us low high n;
      ret (v :: vs)
  end.

(** [np.random.normal(loc, scale)] with an array [loc] and a float
    [scale]: the array case of [Draft.np_random_normal_v]. *)
Definition np_random_normal_array {rs env} (loc : ndarray) (scale : R)
  : py rs env ndarray :=
  Draft.draws ((fun m => (m, scale)) <$> loc).

Module Notebook.
Definition beta_0_true : R := -1.
Definition beta_1_true : R := 2.
Definition tau_true : R := 1.
Definition N : nat := 50.

Definition synthetic_data {rs env} (us : UniformSource rs)
  : py rs env (ndarray * ndarray) :=
  x ← np_random_uniform_size us 0 4 N;
  y ← np_random_normal_array
        (Rplus beta_0_true <$> (Rmult beta_1_true <$> x))
        (1 / sqrt tau_true);
  ret (x, y).

Definition iters : Z := 1000.

(** The cells in order: generate the data, then run the sampler on it. *)
Definition main {rs env} (us : UniformSource rs) : py rs env (list row) :=
  xy ← synthetic_data us;
  gibbs xy.2 xy.1 iters init hypers.
End Notebook.

(** [np.random.uniform] for the stand-in generator: the midpoint. *)
Definition mean_uniform : UniformSource mean_source := {|
  uniform := fun low high (n : rng mean_source) =>
    (Ok ((low + high) / 2), S n : rng mean_source)
|}.

(** ** The samplers and the driver on float64

    The same cells as above, with NumPy's [float64] arithmetic: every
    operation rounds to nearest even, overflows to infinity and
    propagates NaN as IEEE 754 prescribes.  The generator is again a
    parameter; it shares its state with a [RandomSource]. *)

Module F64.
Local Open Scope float_scope.

(** [float(n)] for a Python int [n] (exact below 2^53). *)
Fixpoint of_nat (n : nat) : float :=
  match n with
  | O => 0
  | S n' => of_nat n' + 1
  end.

(** [np.sum] of a float64 array: accumulation from 0 in index order,
    which is what NumPy does for fewer than 8 elements, up to the sign of
    a zero result (longer arrays are summed in blocks of 8 accumulators;
    the statements about this module use arrays of at most 3 elements). *)
Definition np_sum (a : list float) : float := fold_left PrimFloat.add a 0.

Record Generator (rs : RandomSource) : Type := {
  normal64 : float -> float -> rng rs -> outcome float * rng rs;
  gamma64 : float -> float -> rng rs -> outcome float * rng rs
}.
Arguments normal64 {rs} _ _ _ _.
Arguments gamma64 {rs} _ _ _ _.

Definition row64 : Type := (float * float * float)%type.

Section Sampler64.
Context {rs : RandomSource} {env : Type} (g : Generator rs).

Definition np_random_normal (loc scale : float) : py rs env float :=
  fun w => let (o, s) := normal64 g loc scale (np_random w) in
           (o, World s (globals w)).

Definition np_random_gamma (k theta : float) : py rs env float :=
  fun w => let (o, s) := gamma64 g k theta (np_random w) in
           (o, World s (globals w)).

Definition getitem (d : gmap string float) (key : string) : py rs env float :=
  match d !! key with
  | Some v => ret v
  | None => raise (KeyError key)
  end.

Definition np_zeros (iters : Z) : py rs env (list row64) :=
  if (iters <? 0)%Z then raise ValueError
  else ret (replicate (Z.to_nat iters) (0, 0, 0)).

Definition sample_beta_0 (y x : list float) (beta_1 tau mu_0 tau_0 : float)
  : py rs env float :=
  let N := length y in
  assert (length x =? N)%nat;;
  let precision := tau_0 + tau * of_nat N in
  d ← lift (broadcast PrimFloat.sub y (PrimFloat.mul beta_1 <$> x));
  let mean := tau_0 * mu_0 + tau * np_sum d in
  let mean := mean / precision in
  np_random_normal mean (1 / PrimFloat.sqrt precision).

Definition sample_beta_1 (y x : list float) (beta_0 tau mu_1 tau_1 : float)
  : py rs env float :=
  let N := length y in
  assert (length x =? N)%nat;;
  xx ← lift (broadcast PrimFloat.mul x x);
  let precision := tau_1 + tau * np_sum xx in
  d ← lift (broadcast PrimFloat.mul ((fun yi => yi - beta_0) <$> y) x);
  let mean := tau_1 * mu_1 + tau * np_sum d in
  let mean := mean / precision in
  np_random_normal mean (1 / PrimFloat.sqrt precision).

Definition sample_tau (y x : list float) (beta_0 beta_1 alpha beta : float)
  : py rs env float :=
  let N := length y in
  let alpha_new := alpha + of_nat N / 2 in
  resid ← lift (broadcast PrimFloat.sub ((fun yi => yi - beta_0) <$> y)
                              (PrimFloat.mul beta_1 <$> x));
  rr ← lift (broadcast PrimFloat.mul resid resid);
  let beta_new := beta + np_sum rr / 2 in
  np_random_gamma alpha_new (1 / beta_new).

Definition gibbs_body (y x : list float) (hypers : gmap string float)
    (it : nat) (s : float * float * float * list row64)
  : py rs env (float * float * float * list row64) :=
  let '(beta_0, beta_1, tau, trace) := s in
  mu_0 ← getitem hypers "mu_0";
  tau_0 ← getitem hypers "tau_0";
  beta_0 ← sample_beta_0 y x beta_1 tau mu_0 tau_0;
  mu_1 ← getitem hypers "mu_1";
  tau_1 ← getitem hypers "tau_1";
  beta_1 ← sample_beta_1 y x beta_0 tau mu_1 tau_1;
  alpha ← getitem hypers "alpha";
  beta ← getitem hypers "beta";
  tau ← sample_tau y x beta_0 beta_1 alpha beta;
  ret (beta_0, beta_1, tau, <[it := (beta_0, beta_1, tau)]> trace).

Definition gibbs (y x : list float) (iters : Z)
    (init hypers : gmap string float) : py rs env (list row64) :=
  assert (length y =? length x)%nat;;
  beta_0 ← getitem init "beta_0";
  beta_1 ← getitem init "beta_1";
  tau ← getitem init "tau";
  trace ← np_zeros iters;
  s ← for_loop (gibbs_body y x hypers) (range (Z.to_nat iters))
                (beta_0, beta_1, tau, trace);
  ret (snd s).
End Sampler64.

(** The notebook's [init] and [hypers] (cell 42). *)
Definition init : gmap string float :=
  <["beta_0" := 0]> (<["beta_1" := 0]> (<["tau" := 2]> ∅)).

Definition hypers : gmap string float :=
  <["mu_0" := 0]> (<["tau_0" := 1]> (<["mu_1" := 0]> (<["tau_1" := 1]>
    (<["alpha" := 2]> (<["beta" := 1]> ∅))))).


End F64.

(** ** Arrays: sums and broadcasting *)

Lemma sum_upto_ext n f g :
  (forall i, (i < n)%nat -> f i = g i) -> sum_upto n f = sum_upto n g.
Proof.
  induction n as [|n IH]; intros H; simpl; [reflexivity|].
  rewrite IH by (intros; apply H; lia). rewrite H by lia. reflexivity.
Qed.

Lemma sum_upto_shift n f :
  sum_upto (S n) f = f O + sum_upto n (fun i => f (S i)).
Proof.
  induction n as [|n IH].
  - simpl. lra.
  - change (sum_upto (S (S n)) f) with (sum_upto (S n) f + f (S n)).
    rewrite IH. simpl. lra.
Qed.

Lemma sum_upto_nonneg n f :
  (forall i, (i < n)%nat -> 0 <= f i) -> 0 <= sum_upto n f.
Proof.
  induction n as [|n IH]; intros H; simpl; [lra|].
  assert (0 <= sum_upto n f) by (apply IH; intros; apply H; lia).
  assert (0 <= f n) by (apply H; lia). lra.
Qed.

Lemma np_sum_zip_with (f : R -> R -> R) (a b : ndarray) :
  length a = length b ->
  np_sum (zip_with f a b)
  = sum_upto (length a) (fun i => f (item a i) (item b i)).
Proof.
  revert b. induction a as [|a0 a IH]; intros [|b0 b] Hlen;
    simpl in Hlen; try discriminate.
  - reflexivity.
  - cbn [zip_with np_sum foldr length].
    rewrite sum_upto_shift. f_equal.
    apply IH. lia.
Qed.

Lemma np_sum_zip_with_sq (g : R -> R -> R) (a b : ndarray) :
  length a = length b ->
  np_sum (zip_with Rmult (zip_with g a b) (zip_with g a b))
  = sum_upto (length a)
      (fun i => g (item a i) (item b i) * g (item a i) (item b i)).
Proof.
  revert b. induction a as [|a0 a IH]; intros [|b0 b] Hlen;
    simpl in Hlen; try discriminate.
  - reflexivity.
  - cbn [zip_with np_sum foldr length].
    rewrite sum_upto_shift. f_equal.
    apply IH. lia.
Qed.

Lemma np_sum_fmap (f : R -> R) (a : ndarray) :
  np_sum (f <$> a) = sum_upto (length a) (fun i => f (item a i)).
Proof.
  induction a as [|a0 a IH].
  - reflexivity.
  - cbn [fmap list_fmap np_sum foldr length].
    rewrite sum_upto_shift. f_equal. apply IH.
Qed.

Lemma broadcast_same_length {A B C} (f : A -> B -> C) a b :
  length a = length b -> broadcast f a b = Ok (zip_with f a b).
Proof. intros H. unfold broadcast. rewrite H, Nat.eqb_refl. reflexivity. Qed.

Lemma broadcast_self {A C} (f : A -> A -> C) a :
  broadcast f a a = Ok (zip_with f a a).
Proof. apply broadcast_same_length. reflexivity. Qed.

Lemma broadcast_singleton_r {A B C} (f : A -> B -> C) a b0 :
  broadcast f a [b0] = Ok ((fun ai => f ai b0) <$> a).
Proof.
  unfold broadcast. destruct (length a =? length [b0])%nat eqn:E.
  - apply Nat.eqb_eq in E. destruct a as [|a0 [|a1 a]]; try discriminate.
    reflexivity.
  - destruct a as [|a0 [|a1 a]]; reflexivity.
Qed.

(** ** Running the samplers *)

Section Laws.
Context {rs : RandomSource} {env : Type}.
Implicit Types (w : world rs env) (y x : ndarray).

Lemma bind_assert_true {A} (b : bool) (k : py rs env A) w :
  b = true -> (assert b;; k) w = k w.
Proof. intros ->. reflexivity. Qed.

Lemma bind_assert_false {A} (b : bool) (k : py rs env A) w :
  b = false -> (assert b;; k) w = (Raise AssertionError, w).
Proof. intros ->. reflexivity. Qed.

Lemma bind_lift_ok {A B} (o : outcome A) a (k : A -> py rs env B) w :
  o = Ok a -> (v ← lift o; k v) w = k a w.
Proof. intros ->. reflexivity. Qed.

Lemma sample_beta_0_law y x beta_1 tau mu_0 tau_0 w :
  length y = length x ->
  sample_beta_0 y x beta_1 tau mu_0 tau_0 w
  = normal_mean_precision (intercept_mean y x beta_1 tau mu_0 tau_0)
                          (intercept_precision y tau tau_0) w.
Proof.
  intros Hlen. unfold sample_beta_0.
  rewrite bind_assert_true by (apply Nat.eqb_eq; congruence).
  erewrite bind_lift_ok; cycle 1.
  { apply broadcast_same_length. rewrite length_fmap. exact Hlen. }
  rewrite zip_with_fmap_r. rewrite np_sum_zip_with by exact Hlen.
  reflexivity.
Qed.

Lemma sample_beta_1_law y x beta_0 tau mu_1 tau_1 w :
  length y = length x ->
  sample_beta_1 y x beta_0 tau mu_1 tau_1 w
  = normal_mean_precision (slope_mean y x beta_0 tau mu_1 tau_1)
                          (slope_precision y x tau tau_1) w.
Proof.
  intros Hlen. unfold sample_beta_1.
  rewrite bind_assert_true by (apply Nat.eqb_eq; congruence).
  erewrite bind_lift_ok by apply broadcast_self.
  erewrite bind_lift_ok; cycle 1.
  { apply broadcast_same_length. rewrite length_fmap. exact Hlen. }
  rewrite zip_with_fmap_l.
  rewrite (np_sum_zip_with _ y x) by exact Hlen.
  rewrite (np_sum_zip_with _ x x) by reflexivity.
  unfold normal_mean_precision, slope_mean, slope_precision.
  rewrite <- Hlen.
  rewrite (sum_upto_ext _ (fun i => item x i * item x i) (fun i => item x i ^ 2))
    by (intros; ring).
  reflexivity.
Qed.

Lemma sample_tau_law y x beta_0 beta_1 alpha beta w :
  length y = length x ->
  sample_tau y x beta_0 beta_1 alpha beta w
  = gamma_shape_rate (posterior_shape y alpha)
                     (posterior_rate y x beta_0 beta_1 beta) w.
Proof.
  intros Hlen. unfold sample_tau.
  erewrite bind_lift_ok; cycle 1.
  { apply broadcast_same_length. rewrite !length_fmap. exact Hlen. }
  erewrite bind_lift_ok by apply broadcast_self.
  rewrite zip_with_fmap_l, zip_with_fmap_r.
  rewrite np_sum_zip_with_sq by exact Hlen.
  unfold gamma_shape_rate, posterior_shape, posterior_rate,
    residual_sum_of_squares.
  rewrite (sum_upto_ext _ _
    (fun i => (item y i - beta_0 - beta_1 * item x i) ^ 2))
    by (intros; ring).
  reflexivity.
Qed.

(** The guard of the two Normal samplers. *)
Lemma sample_beta_0_mismatch y x beta_1 tau mu_0 tau_0 w :
  length y <> length x ->
  sample_beta_0 y x beta_1 tau mu_0 tau_0 w = (Raise AssertionError, w).
Proof.
  intros Hne. unfold sample_beta_0.
  apply bind_assert_false. apply Nat.eqb_neq. congruence.
Qed.

Lemma sample_beta_1_mismatch y x beta_0 tau mu_1 tau_1 w :
  length y <> length x ->
  sample_beta_1 y x beta_0 tau mu_1 tau_1 w = (Raise AssertionError, w).
Proof.
  intros Hne. unfold sample_beta_1.
  apply bind_assert_false. apply Nat.eqb_neq. congruence.
Qed.

(** [sample_tau] has no guard: a one-element [x] is broadcast over [y]. *)
Lemma sample_tau_broadcast_x y (x0 : R) beta_0 beta_1 alpha beta w :
  sample_tau y [x0] beta_0 beta_1 alpha beta w
  = gamma_shape_rate (posterior_shape y alpha)
      (beta + sum_upto (length y)
                (fun i => (item y i - beta_0 - beta_1 * x0) ^ 2) / 2) w.
Proof.
  unfold sample_tau.
  erewrite bind_lift_ok by apply broadcast_singleton_r.
  erewrite bind_lift_ok by apply broadcast_self.
  rewrite <- list_fmap_compose.
  rewrite zip_with_diag, <- list_fmap_compose, np_sum_fmap.
  unfold gamma_shape_rate, posterior_shape.
  rewrite (sum_upto_ext _ _
    (fun i => (item y i - beta_0 - beta_1 * x0) ^ 2))
    by (intros; unfold compose; ring).
  reflexivity.
Qed.

(** Lengths that differ and are both other than 1 do not broadcast. *)
Lemma sample_tau_mismatch y x beta_0 beta_1 alpha beta w :
  length y <> length x -> length y <> 1%nat -> length x <> 1%nat ->
  sample_tau y x beta_0 beta_1 alpha beta w = (Raise ValueError, w).
Proof.
  intros Hne Hy Hx. unfold sample_tau, broadcast.
  rewrite !length_fmap.
  destruct (Nat.eqb_spec (length y) (length x)) as [?|_]; [contradiction|].
  destruct y as [|y0 [|y1 y]], x as [|x0 [|x1 x]];
    simpl in *; try congruence; reflexivity.
Qed.
End Laws.

(** ** Positivity of the posterior parameters *)

Lemma INR_nonneg (n : nat) : 0 <= INR n.
Proof. apply pos_INR. Qed.

Lemma inv_sqrt_pos (p : R) : 0 < p -> 0 < 1 / sqrt p.
Proof.
  intros Hp. apply Rdiv_lt_0_compat; [lra|]. apply sqrt_lt_R0. exact Hp.
Qed.

Lemma intercept_precision_pos (y : ndarray) (tau tau_0 : R) :
  0 < tau_0 -> 0 < tau -> 0 < intercept_precision y tau tau_0.
Proof.
  intros H0 Ht. unfold intercept_precision.
  pose proof (INR_nonneg (length y)). nra.
Qed.

Lemma slope_precision_pos (y x : ndarray) (tau tau_1 : R) :
  0 < tau_1 -> 0 < tau -> 0 < slope_precision y x tau tau_1.
Proof.
  intros H1 Ht. unfold slope_precision.
  assert (0 <= sum_upto (length y) (fun i => item x i ^ 2)).
  { apply sum_upto_nonneg. intros i _. apply pow2_ge_0. }
  nra.
Qed.

Lemma posterior_shape_pos (y : ndarray) (alpha : R) :
  0 < alpha -> 0 < posterior_shape y alpha.
Proof.
  intros Ha. unfold posterior_shape.
  pose proof (INR_nonneg (length y)). lra.
Qed.

Lemma residual_sum_of_squares_nonneg (y x : ndarray) (b0 b1 : R) :
  0 <= residual_sum_of_squares y x b0 b1.
Proof. apply sum_upto_nonneg. intros i _. apply pow2_ge_0. Qed.

Lemma posterior_rate_pos (y x : ndarray) (b0 b1 beta : R) :
  0 < beta -> 0 < posterior_rate y x b0 b1 beta.
Proof.
  intros Hb. unfold posterior_rate.
  pose proof (residual_sum_of_squares_nonneg y x b0 b1). lra.
Qed.

(** ** The driver *)

Lemma fill_take (rows : list row) : forall (i : nat) (trace : list row),
  length trace = (i + length rows)%nat ->
  fill i rows trace = take i trace ++ rows.
Proof.
  induction rows as [|r rows IH]; intros i trace Hlen; simpl in *.
  - rewrite take_ge by lia. rewrite app_nil_r. reflexivity.
  - rewrite IH by (rewrite length_insert; lia).
    rewrite (take_S_r _ i r) by (apply list_lookup_insert_eq; lia).
    rewrite take_insert_ge by lia.
    rewrite <- app_assoc. reflexivity.
Qed.

Lemma fill_zeros (rows : list row) :
  fill 0 rows (replicate (length rows) (0, 0, 0)) = rows.
Proof. rewrite fill_take by (rewrite length_replicate; lia). reflexivity. Qed.

Section Driver.
Context {rs : RandomSource} {env : Type}.
Implicit Types (w : world rs env) (y x : ndarray) (s : row)
  (h : hyperparameters).

Lemma bind_run {A B} (c : py rs env A) (k : A -> py rs env B) w :
  (a ← c; k a) w
  = match c w with
    | (Ok a, w') => k a w'
    | (Raise e, w') => (Raise e, w')
    end.
Proof. reflexivity. Qed.

Lemma bind_ext {A B} (c : py rs env A) (k1 k2 : A -> py rs env B) w :
  (forall a w', k1 a w' = k2 a w') ->
  (a ← c; k1 a) w = (a ← c; k2 a) w.
Proof.
  intros H. rewrite !bind_run. destruct (c w) as [[a|e] w']; auto.
Qed.

Lemma bind_assoc {A B C} (c : py rs env A) (k : A -> py rs env B)
    (k' : B -> py rs env C) w :
  (b ← (a ← c; k a); k' b) w = (a ← c; b ← k a; k' b) w.
Proof. rewrite !bind_run. destruct (c w) as [[a|e] w']; reflexivity. Qed.

Lemma getitem_some {A} (d : gmap string R) key (v : R)
    (k : R -> py rs env A) w :
  d !! key = Some v -> (r ← getitem d key; k r) w = k v w.
Proof. intros H. unfold getitem. rewrite H. reflexivity. Qed.
Arguments getitem_some {A d key v} k w _.

(** The loop body is one transition followed by the store into the
    trace. *)
Lemma gibbs_body_transition y x hypers h (it : nat) s (trace : list row) w :
  holds_hypers hypers h ->
  gibbs_body y x hypers it (s, trace) w
  = (s' ← transition y x h s; ret (s', <[it := s']> trace)) w.
Proof.
  intros (Hm0 & Ht0 & Hm1 & Ht1 & Ha & Hb).
  destruct s as [[b0 b1] tau]. unfold gibbs_body, transition.
  rewrite (getitem_some _ _ Hm0), (getitem_some _ _ Ht0).
  cbn [fst snd]. rewrite bind_assoc. apply bind_ext. intros v0 w0.
  rewrite (getitem_some _ _ Hm1), (getitem_some _ _ Ht1).
  rewrite bind_assoc. apply bind_ext. intros v1 w1.
  rewrite (getitem_some _ _ Ha), (getitem_some _ _ Hb).
  rewrite bind_assoc. apply bind_ext. intros v2 w2. reflexivity.
Qed.
Lemma run_chain_length (k : nat) : forall y x h s w rows w',
  run_chain k y x h s w = (Ok rows, w') -> length rows = k.
Proof.
  induction k as [|k IH]; intros y x h s w rows w' Hrun; simpl in Hrun.
  - inversion Hrun. reflexivity.
  - rewrite bind_run in Hrun.
    destruct (transition y x h s w) as [[s1|e] w1]; [|discriminate].
    rewrite bind_run in Hrun.
    destruct (run_chain k y x h s1 w1) as [[rest|e] w2] eqn:Hrest;
      [|discriminate].
    inversion Hrun; subst. simpl. f_equal. eapply IH. exact Hrest.
Qed.

(** Loop invariant: [n] iterations starting at index [i] perform the
    [n] transitions of [run_chain] and store them at [i], [i+1], ... *)
Lemma for_loop_gibbs_body y x hypers h (n : nat) :
  holds_hypers hypers h ->
  forall (i : nat) s (trace : list row) w,
    for_loop (gibbs_body y x hypers) (seq i n) (s, trace) w
    = match run_chain n y x h s w with
      | (Ok rows, w') => (Ok (default s (last rows), fill i rows trace), w')
      | (Raise e, w') => (Raise e, w')
      end.
Proof.
  intros Hh. induction n as [|n IH]; intros i s trace w.
  - reflexivity.
  - cbn [seq for_loop run_chain].
    change (bind ?c ?k) with (a ← c; k a).
    rewrite !bind_run.
    rewrite (gibbs_body_transition y x hypers h) by exact Hh.
    rewrite bind_run.
    destruct (transition y x h s w) as [[s1|e] w1]; [|reflexivity].
    cbn [ret]. rewrite IH, bind_run.
    destruct (run_chain n y x h s1 w1) as [[rest|e] w2]; [|reflexivity].
    cbn [ret fill]. do 2 f_equal.
    destruct rest as [|r rest]; [reflexivity|].
    rewrite !last_cons. destruct (last rest); reflexivity.
Qed.

(** The driver is the chain of transitions. *)
Lemma gibbs_run_chain y x (iters : Z) init hypers s h w :
  length y = length x ->
  (0 <= iters)%Z ->
  holds_init init s ->
  holds_hypers hypers h ->
  gibbs y x iters init hypers w = run_chain (Z.to_nat iters) y x h s w.
Proof.
  intros Hlen Hit (Hb0 & Hb1 & Htau) Hh. unfold gibbs.
  rewrite bind_assert_true by (apply Nat.eqb_eq; exact Hlen).
  rewrite (getitem_some _ _ Hb0), (getitem_some _ _ Hb1),
    (getitem_some _ _ Htau).
  unfold np_zeros. destruct (Z.ltb_spec iters 0) as [?|_]; [lia|].
  rewrite bind_run. cbn [ret]. rewrite bind_run. unfold range.
  destruct s as [[b0 b1] tau]. cbn [fst snd].
  rewrite (for_loop_gibbs_body y x hypers h) by exact Hh.
  destruct (run_chain (Z.to_nat iters) y x h (b0, b1, tau) w)
    as [[rows|e] w'] eqn:Hrun; [|reflexivity].
  cbn [ret snd]. apply run_chain_length in Hrun as <-.
  rewrite fill_zeros. reflexivity.
Qed.

(** *** Draws are produced under the generator's contract *)

Section Contract.
Hypothesis contract : numpy_contract rs.

Lemma np_random_normal_returns loc scale w :
  0 < scale -> exists v w', np_random_normal loc scale w = (Ok v, w').
Proof.
  intros Hs. unfold np_random_normal.
  destruct (normal_returns rs contract loc scale (np_random w) Hs)
    as (v & s' & ->). eauto.
Qed.

Lemma np_random_gamma_returns k theta w :
  0 < k -> 0 < theta ->
  exists v w', np_random_gamma k theta w = (Ok v, w') /\ 0 < v.
Proof.
  intros Hk Ht. unfold np_random_gamma.
  destruct (gamma_returns rs contract k theta (np_random w) Hk Ht)
    as (v & s' & -> & Hv). eauto.
Qed.

Lemma sample_beta_0_returns y x beta_1 tau mu_0 tau_0 w :
  length y = length x -> 0 < intercept_precision y tau tau_0 ->
  exists v w', sample_beta_0 y x beta_1 tau mu_0 tau_0 w = (Ok v, w').
Proof.
  intros Hlen Hp. rewrite sample_beta_0_law by exact Hlen.
  apply np_random_normal_returns, inv_sqrt_pos, Hp.
Qed.

Lemma sample_beta_1_returns y x beta_0 tau mu_1 tau_1 w :
  length y = length x -> 0 < slope_precision y x tau tau_1 ->
  exists v w', sample_beta_1 y x beta_0 tau mu_1 tau_1 w = (Ok v, w').
Proof.
  intros Hlen Hp. rewrite sample_beta_1_law by exact Hlen.
  apply np_random_normal_returns, inv_sqrt_pos, Hp.
Qed.

Lemma sample_tau_returns y x beta_0 beta_1 alpha beta w :
  length y = length x ->
  0 < posterior_shape y alpha ->
  0 < posterior_rate y x beta_0 beta_1 beta ->
  exists v w',
    sample_tau y x beta_0 beta_1 alpha beta w = (Ok v, w') /\ 0 < v.
Proof.
  intros Hlen Hk Hr. rewrite sample_tau_law by exact Hlen.
  apply np_random_gamma_returns; [exact Hk|].
  apply Rdiv_lt_0_compat; [lra|exact Hr].
Qed.

Lemma transition_returns y x h s w :
  length y = length x -> valid_hypers h -> 0 < s.2 ->
  exists s' w', transition y x h s w = (Ok s', w') /\ 0 < s'.2.
Proof.
  intros Hlen (Ht0 & Ht1 & Ha & Hb) Htau. unfold transition.
  destruct (sample_beta_0_returns y x s.1.2 s.2
              (prior_mean_intercept h) (prior_precision_intercept h) w)
    as (v0 & w0 & E0);
    [exact Hlen | apply intercept_precision_pos; assumption |].
  rewrite bind_run, E0.
  destruct (sample_beta_1_returns y x v0 s.2
              (prior_mean_slope h) (prior_precision_slope h) w0)
    as (v1 & w1 & E1);
    [exact Hlen | apply slope_precision_pos; assumption |].
  rewrite bind_run, E1.
  destruct (sample_tau_returns y x v0 v1 (shape h) (rate h) w1)
    as (v2 & w2 & E2 & Hv2);
    [exact Hlen | apply posterior_shape_pos; assumption
    | apply posterior_rate_pos; assumption |].
  rewrite bind_run, E2. exists (v0, v1, v2), w2. split; [reflexivity|exact Hv2].
Qed.

Lemma run_chain_returns y x h (k : nat) : forall s w,
  length y = length x -> valid_hypers h -> 0 < s.2 ->
  exists rows w',
    run_chain k y x h s w = (Ok rows, w')
    /\ length rows = k
    /\ Forall (fun r : row => 0 < r.2) rows.
Proof.
  induction k as [|k IH]; intros s w Hlen Hh Htau.
  - exists [], w. repeat split. constructor.
  - cbn [run_chain].
    destruct (transition_returns y x h s w Hlen Hh Htau)
      as (s1 & w1 & E1 & Hs1).
    rewrite bind_run, E1.
    destruct (IH s1 w1 Hlen Hh Hs1) as (rest & w2 & E2 & Hl & Hall).
    rewrite bind_run, E2. exists (s1 :: rest), w2.
    repeat split; [simpl; lia | constructor; assumption].
Qed.
End Contract.
End Driver.
Arguments getitem_some {rs env A d key v} k w _.

(** ** The stand-in generator honours the contract *)

Lemma mean_source_contract : numpy_contract mean_source.
Proof.
  split.
  - intros loc scale s Hs. simpl.
    destruct (Rlt_dec 0 scale); [eauto | contradiction].
  - intros k theta s Hk Ht. simpl.
    destruct (Rlt_dec 0 k); [|contradiction].
    destruct (Rlt_dec 0 theta); [|contradiction].
    exists (k * theta), (S s). split; [reflexivity | nra].
Qed.

Lemma mean_source_normal (loc scale : R) (n : nat) :
  0 < scale -> normal mean_source loc scale n = (Ok loc, S n).
Proof. intros H. simpl. destruct (Rlt_dec 0 scale); [reflexivity | contradiction]. Qed.

Lemma mean_source_gamma (k theta : R) (n : nat) :
  0 < k -> 0 < theta -> gamma mean_source k theta n = (Ok (k * theta), S n).
Proof.
  intros Hk Ht. simpl.
  destruct (Rlt_dec 0 k); [|contradiction].
  destruct (Rlt_dec 0 theta); [reflexivity | contradiction].
Qed.

(** ** The draft of the intercept sampler *)

Section DraftLaws.
Context {rs : RandomSource} {env : Type}.
Implicit Types (w : world rs env) (y x : ndarray).

(** With Python floats for the prior, the draft stops at [len(tau_0)]. *)
Lemma draft_sample_beta_0_float y x beta_1 tau (tau_0 mu_0 : R) w :
  Draft.sample_beta_0 y x beta_1 tau (Draft.Float tau_0) (Draft.Float mu_0) w
  = (Raise (if (length x =? length y)%nat then TypeError else AssertionError), w).
Proof.
  unfold Draft.sample_beta_0.
  destruct (length x =? length y)%nat; reflexivity.
Qed.

(** With one-element arrays it makes the draw of the notebook's sampler
    and returns it in a one-element array. *)
Lemma draft_sample_beta_0_array y x beta_1 tau (tau_0 mu_0 : R) w :
  Draft.sample_beta_0 y x beta_1 tau (Draft.Array [tau_0]) (Draft.Array [mu_0]) w
  = let (o, w') := sample_beta_0 y x beta_1 tau mu_0 tau_0 w in
    (outcome_map (fun v => Draft.Array [v]) o, w').
Proof.
  unfold Draft.sample_beta_0, sample_beta_0.
  destruct (length x =? length y)%nat eqn:Hlen; [|reflexivity].
  apply Nat.eqb_eq in Hlen.
  rewrite !bind_assert_true by reflexivity.
  rewrite bind_run. cbn [Draft.len ret].
  rewrite !bind_assert_true by reflexivity.
  rewrite bind_run. cbn [Draft.len ret].
  rewrite !bind_assert_true by reflexivity.
  rewrite broadcast_same_length by (rewrite length_fmap; congruence).
  repeat (progress (unfold mbind, py_bind, bind, lift, np_random_normal; cbn)).
  destruct (normal rs _ _ (np_random w)) as [[v|e] s']; reflexivity.
Qed.
End DraftLaws.

(** ** Statements about the samplers *)

(** C1: for equal-length observation arrays with N >= 1 and any alpha,
    beta, [sample_tau] computes the posterior shape [alpha + N/2] and the
    posterior rate [beta + (sum of squared residuals)/2] and calls the
    shape/scale Gamma generator with scale [1 / posterior rate], that is,
    it makes the Gamma(shape, rate) draw. *)
Theorem C1_sample_tau_inverts_rate {rs env} (y x : ndarray)
    (beta_0 beta_1 alpha beta : R) (w : world rs env) :
  length y = length x ->
  (1 <= length y)%nat ->
  posterior_shape y alpha = alpha + INR (length y) / 2
  /\ posterior_rate y x beta_0 beta_1 beta
     = beta + sum_upto (length y)
                (fun i => (item y i - beta_0 - beta_1 * item x i) ^ 2) / 2
  /\ sample_tau y x beta_0 beta_1 alpha beta w
     = np_random_gamma (posterior_shape y alpha)
         (1 / posterior_rate y x beta_0 beta_1 beta) w
  /\ sample_tau y x beta_0 beta_1 alpha beta w
     = gamma_shape_rate (posterior_shape y alpha)
         (posterior_rate y x beta_0 beta_1 beta) w.
Proof.
  intros Hlen _. repeat split; apply sample_tau_law; exact Hlen.
Qed.

Lemma C1_witness :
  length [1; 3] = length [0; 1]
  /\ (1 <= length [1; 3])%nat
  /\ sample_tau [1; 3] [0; 1] 1 2 2 1 (after_draws 0)
     = np_random_gamma (posterior_shape [1; 3] 2)
         (1 / posterior_rate [1; 3] [0; 1] 1 2 1) (after_draws 0).
Proof.
  split; [reflexivity|]. split; [simpl; lia|].
  refine (proj1 (proj2 (proj2
    (@C1_sample_tau_inverts_rate mean_source unit [1; 3] [0; 1] 1 2 2 1
       (after_draws 0) _ _))));
    [reflexivity | simpl; lia].
Defined.

(** C4: for non-empty equal-length observations, [sample_beta_0] draws
    from the Normal with posterior precision [tau_0 + tau * N], posterior
    mean [(tau_0 * mu_0 + tau * sum (y_i - beta_1 * x_i)) / precision] and
    standard deviation [1 / sqrt precision]; with the single observation
    (x, y) = (0, 0), prior precision 1, prior mean 0, precision 1 and
    slope 0 the posterior precision is 2 and the posterior mean is 0. *)
Theorem C4_sample_beta_0_posterior {rs env} (y x : ndarray)
    (beta_1 tau mu_0 tau_0 : R) (w : world rs env) :
  length y = length x ->
  (1 <= length y)%nat ->
  (intercept_precision y tau tau_0 = tau_0 + tau * INR (length y)
   /\ intercept_mean y x beta_1 tau mu_0 tau_0
      = (tau_0 * mu_0
         + tau * sum_upto (length y) (fun i => item y i - beta_1 * item x i))
        / (tau_0 + tau * INR (length y))
   /\ sample_beta_0 y x beta_1 tau mu_0 tau_0 w
      = np_random_normal (intercept_mean y x beta_1 tau mu_0 tau_0)
          (1 / sqrt (intercept_precision y tau tau_0)) w)
  /\ (intercept_precision [0] 1 1 = 2
      /\ intercept_mean [0] [0] 0 1 0 1 = 0
      /\ sample_beta_0 [0] [0] 0 1 0 1 w = np_random_normal 0 (1 / sqrt 2) w).
Proof.
  intros Hlen _.
  assert (Hp : intercept_precision [0] 1 1 = 2)
    by (unfold intercept_precision; simpl; lra).
  assert (Hm : intercept_mean [0] [0] 0 1 0 1 = 0).
  { unfold intercept_mean. rewrite Hp. unfold item. simpl. lra. }
  split; [repeat split; apply sample_beta_0_law; exact Hlen|].
  split; [exact Hp|]. split; [exact Hm|].
  rewrite sample_beta_0_law by reflexivity.
  unfold normal_mean_precision. rewrite Hp, Hm. reflexivity.
Qed.

Lemma C4_witness :
  length [1; 3] = length [0; 1]
  /\ (1 <= length [1; 3])%nat
  /\ sample_beta_0 [1; 3] [0; 1] 2 1 0 1 (after_draws 0)
     = np_random_normal (intercept_mean [1; 3] [0; 1] 2 1 0 1)
         (1 / sqrt (intercept_precision [1; 3] 1 1)) (after_draws 0).
Proof.
  split; [reflexivity|]. split; [simpl; lia|].
  refine (proj2 (proj2 (proj1
    (@C4_sample_beta_0_posterior mean_source unit [1; 3] [0; 1] 2 1 0 1
       (after_draws 0) _ _))));
    [reflexivity | simpl; lia].
Defined.

(** C5: for non-empty equal-length observations, [sample_beta_1] draws
    from the Normal with posterior precision [tau_1 + tau * sum x_i^2],
    posterior mean [(tau_1 * mu_1 + tau * sum (y_i - beta_0) * x_i) /
    precision] and standard deviation [1 / sqrt precision]. *)
Theorem C5_sample_beta_1_posterior {rs env} (y x : ndarray)
    (beta_0 tau mu_1 tau_1 : R) (w : world rs env) :
  length y = length x ->
  (1 <= length y)%nat ->
  slope_precision y x tau tau_1
  = tau_1 + tau * sum_upto (length y) (fun i => item x i ^ 2)
  /\ slope_mean y x beta_0 tau mu_1 tau_1
     = (tau_1 * mu_1
        + tau * sum_upto (length y) (fun i => (item y i - beta_0) * item x i))
       / (tau_1 + tau * sum_upto (length y) (fun i => item x i ^ 2))
  /\ sample_beta_1 y x beta_0 tau mu_1 tau_1 w
     = np_random_normal (slope_mean y x beta_0 tau mu_1 tau_1)
         (1 / sqrt (slope_precision y x tau tau_1)) w.
Proof.
  intros Hlen _. repeat split. apply sample_beta_1_law. exact Hlen.
Qed.

Lemma C5_witness :
  length [1; 3] = length [0; 1]
  /\ (1 <= length [1; 3])%nat
  /\ sample_beta_1 [1; 3] [0; 1] 1 1 0 1 (after_draws 0)
     = np_random_normal (slope_mean [1; 3] [0; 1] 1 1 0 1)
         (1 / sqrt (slope_precision [1; 3] [0; 1] 1 1)) (after_draws 0).
Proof.
  split; [reflexivity|]. split; [simpl; lia|].
  refine (proj2 (proj2
    (@C5_sample_beta_1_posterior mean_source unit [1; 3] [0; 1] 1 1 0 1
       (after_draws 0) _ _)));
    [reflexivity | simpl; lia].
Defined.

(** ** Statements about the driver *)

Lemma holds_init_notebook : holds_init init (0, 0, 2).
Proof. repeat split. Qed.

Lemma holds_hypers_notebook : holds_hypers hypers notebook_hyperparameters.
Proof. repeat split. Qed.

Lemma valid_hypers_notebook : valid_hypers notebook_hyperparameters.
Proof. unfold valid_hypers. simpl. lra. Qed.

(** *** A worked run

    One iteration of the notebook's configuration on the observations
    (x, y) = (0, 1), (1, 3), with the stand-in generator: the intercept
    draw 8/5 feeds the slope draw 14/15, both feed the precision draw
    135/58, and three variates are consumed. *)

Lemma worked_intercept :
  intercept_precision [1; 3] 2 1 = 5
  /\ intercept_mean [1; 3] [0; 1] 0 2 0 1 = 8 / 5.
Proof.
  unfold intercept_mean, intercept_precision, item. simpl. split; [lra|field].
Qed.

Lemma worked_slope :
  slope_precision [1; 3] [0; 1] 2 1 = 3
  /\ slope_mean [1; 3] [0; 1] (8 / 5) 2 0 1 = 14 / 15.
Proof.
  unfold slope_mean, slope_precision, item. simpl. split; [lra|field].
Qed.



(** C2: on valid input (equal-length observations, K > 0, a valid initial
    state and valid hyperparameters) [gibbs] performs exactly K
    iterations, each one a [transition] (intercept from the previous slope
    and precision, then slope from the new intercept and the previous
    precision, then precision from both new values), and returns the K
    triples in generation order. *)
Theorem C2_gibbs_is_chain_of_transitions {rs env} (y x : ndarray) (K : Z)
    (init hypers : gmap string R) (s0 : row) (h : hyperparameters)
    (w : world rs env) :
  numpy_contract rs ->
  length y = length x ->
  (0 < K)%Z ->
  holds_init init s0 ->
  0 < s0.2 ->
  holds_hypers hypers h ->
  valid_hypers h ->
  exists (trace : list row) (w' : world rs env),
    gibbs y x K init hypers w = (Ok trace, w')
    /\ run_chain (Z.to_nat K) y x h s0 w = (Ok trace, w')
    /\ Z.of_nat (length trace) = K.
Proof.
  intros contract Hlen HK Hinit Htau Hh Hvalid.
  destruct (run_chain_returns contract y x h (Z.to_nat K) s0 w Hlen Hvalid Htau)
    as (trace & w' & Hrun & Hl & _).
  exists trace, w'. split; [|split; [exact Hrun | lia]].
  rewrite (gibbs_run_chain y x K init hypers s0 h) by (assumption || lia).
  exact Hrun.
Qed.

Lemma C2_witness :
  numpy_contract mean_source
  /\ length [1; 3] = length [0; 1]
  /\ (0 < 2)%Z
  /\ holds_init init (0, 0, 2)
  /\ 0 < (0, 0, 2).2
  /\ holds_hypers hypers notebook_hyperparameters
  /\ valid_hypers notebook_hyperparameters
  /\ exists (trace : list row) (w' : world mean_source unit),
       gibbs [1; 3] [0; 1] 2 init hypers (after_draws 0) = (Ok trace, w')
       /\ run_chain (Z.to_nat 2) [1; 3] [0; 1] notebook_hyperparameters
            (0, 0, 2) (after_draws 0) = (Ok trace, w')
       /\ Z.of_nat (length trace) = 2%Z.
Proof.
  assert (Hpos : 0 < (0, 0, 2).2) by (simpl; lra).
  repeat apply conj;
    try exact mean_source_contract; try exact Hpos; try reflexivity;
    try exact (proj1 valid_hypers_notebook);
    try exact (proj1 (proj2 valid_hypers_notebook));
    try exact (proj1 (proj2 (proj2 valid_hypers_notebook)));
    try exact (proj2 (proj2 (proj2 valid_hypers_notebook))).
  exact (@C2_gibbs_is_chain_of_transitions mean_source unit [1; 3] [0; 1] 2
           init hypers (0, 0, 2) notebook_hyperparameters (after_draws 0)
           mean_source_contract eq_refl eq_refl holds_init_notebook Hpos
           holds_hypers_notebook valid_hypers_notebook).
Defined.

Section Precision.
Context {rs : RandomSource} {env : Type}.
Implicit Types (w : world rs env) (y x : ndarray) (s : row)
  (h : hyperparameters).


End Precision.

Local Set Warnings "-inexact-float".




(** C10: with an iteration count of 0 and equal-length observations
    [gibbs] raises nothing and returns the empty trace; the generator is
    not touched and [hypers] is not read. *)
Theorem C10_gibbs_zero_iterations {rs env} (y x : ndarray)
    (init hypers : gmap string R) (s0 : row) (w : world rs env) :
  length y = length x ->
  holds_init init s0 ->
  gibbs y x 0 init hypers w = (Ok [], w).
Proof.
  intros Hlen (Hb0 & Hb1 & Htau). unfold gibbs.
  rewrite bind_assert_true by (apply Nat.eqb_eq; exact Hlen).
  rewrite (getitem_some _ _ Hb0), (getitem_some _ _ Hb1),
    (getitem_some _ _ Htau).
  reflexivity.
Qed.

Lemma C10_witness :
  length [1; 3] = length [0; 1]
  /\ holds_init init (0, 0, 2)
  /\ gibbs [1; 3] [0; 1] 0 init ∅ (after_draws 0) = (Ok [], after_draws 0).
Proof.
  split; [reflexivity|]. split; [exact holds_init_notebook|].
  exact (@C10_gibbs_zero_iterations mean_source unit [1; 3] [0; 1]
           init ∅ (0, 0, 2) (after_draws 0) eq_refl holds_init_notebook).
Defined.

(** ** Where the code departs from the specification *)

(** C3: the two Normal samplers stop with [AssertionError] on arrays of
    unequal length, but [sample_tau] has no such guard: with [y = [1; 2]]
    and [x = [3]] it broadcasts [x] and hands the posterior parameters to
    the Gamma generator, which returns a draw. *)
Theorem C3_sample_tau_has_no_length_guard {rs env}
    (beta_0 beta_1 tau mu_0 tau_0 mu_1 tau_1 alpha beta : R)
    (w : world rs env) :
  sample_beta_0 [1; 2] [3] beta_1 tau mu_0 tau_0 w = (Raise AssertionError, w)
  /\ sample_beta_1 [1; 2] [3] beta_0 tau mu_1 tau_1 w
     = (Raise AssertionError, w)
  /\ sample_tau [1; 2] [3] beta_0 beta_1 alpha beta w
     = np_random_gamma (alpha + 2 / 2)
         (1 / (beta + ((1 - beta_0 - beta_1 * 3) ^ 2
                       + (2 - beta_0 - beta_1 * 3) ^ 2) / 2)) w
  /\ sample_tau [1; 2] [3] 0 0 2 1 (after_draws 0)
     = (Ok (3 * (1 / (1 + 5 / 2))), after_draws 1).
Proof.
  assert (Hlaw : forall rs' env' b0 b1 a b (w' : world rs' env'),
    sample_tau [1; 2] [3] b0 b1 a b w'
    = np_random_gamma (a + 2 / 2)
        (1 / (b + ((1 - b0 - b1 * 3) ^ 2 + (2 - b0 - b1 * 3) ^ 2) / 2)) w').
  { intros. rewrite sample_tau_broadcast_x.
    unfold gamma_shape_rate, posterior_shape, item. simpl.
    do 2 f_equal; lra. }
  split; [reflexivity|]. split; [reflexivity|]. split; [apply Hlaw|].
  rewrite Hlaw. unfold np_random_gamma, after_draws. cbn [np_random globals].
  rewrite mean_source_gamma by lra.
  do 2 f_equal. lra.
Qed.

(** C7, as the specification states it, fails: with the non-positive prior
    precisions [tau_0 = -1] and [tau_1 = -1], and with the non-positive
    Gamma parameters [alpha = -1/2] and [beta = -1], the samplers return a
    draw. *)
Lemma C7_counterexample :
  sample_beta_0 [0] [0] 0 2 0 (-1) (after_draws 0) = (Ok 0, after_draws 1)
  /\ sample_beta_1 [0] [1] 0 2 0 (-1) (after_draws 0) = (Ok 0, after_draws 1)
  /\ sample_tau [2; 0] [0; 0] 0 0 (-1 / 2) (-1) (after_draws 0)
     = (Ok (1 / 2), after_draws 1).
Proof.
  split; [|split].
  - rewrite sample_beta_0_law by reflexivity.
    unfold normal_mean_precision, intercept_mean, intercept_precision, item.
    simpl. replace (-1 + 2 * 1) with 1 by lra. rewrite sqrt_1.
    unfold np_random_normal, after_draws. cbn [np_random globals].
    rewrite mean_source_normal by lra. do 2 f_equal. lra.
  - rewrite sample_beta_1_law by reflexivity.
    unfold normal_mean_precision, slope_mean, slope_precision, item.
    simpl. replace (-1 + 2 * (0 + 1 * (1 * 1))) with 1 by lra. rewrite sqrt_1.
    unfold np_random_normal, after_draws. cbn [np_random globals].
    rewrite mean_source_normal by lra. do 2 f_equal. lra.
  - rewrite sample_tau_law by reflexivity.
    unfold gamma_shape_rate, posterior_shape, posterior_rate,
      residual_sum_of_squares, item.
    simpl. unfold np_random_gamma, after_draws. cbn [np_random globals].
    rewrite mean_source_gamma by lra. do 2 f_equal. lra.
Qed.

(** C7, amended: no sampler validates a hyperparameter.  With equal-length
    observations each one hands its posterior parameters to the generator
    whatever the signs of [tau_0], [tau_1], [alpha] and [beta], and a draw
    is returned as soon as the posterior precision (for [sample_tau]: the
    posterior shape and rate) is positive. *)
Theorem C7_no_hyperparameter_validation {rs env} (y x : ndarray)
    (beta_0 beta_1 tau mu_0 tau_0 mu_1 tau_1 alpha beta : R)
    (w : world rs env) :
  numpy_contract rs ->
  length y = length x ->
  (sample_beta_0 y x beta_1 tau mu_0 tau_0 w
   = np_random_normal (intercept_mean y x beta_1 tau mu_0 tau_0)
       (1 / sqrt (intercept_precision y tau tau_0)) w
   /\ (0 < intercept_precision y tau tau_0 ->
       exists v w', sample_beta_0 y x beta_1 tau mu_0 tau_0 w = (Ok v, w')))
  /\ (sample_beta_1 y x beta_0 tau mu_1 tau_1 w
      = np_random_normal (slope_mean y x beta_0 tau mu_1 tau_1)
          (1 / sqrt (slope_precision y x tau tau_1)) w
      /\ (0 < slope_precision y x tau tau_1 ->
          exists v w', sample_beta_1 y x beta_0 tau mu_1 tau_1 w = (Ok v, w')))
  /\ (sample_tau y x beta_0 beta_1 alpha beta w
      = np_random_gamma (posterior_shape y alpha)
          (1 / posterior_rate y x beta_0 beta_1 beta) w
      /\ (0 < posterior_shape y alpha ->
          0 < posterior_rate y x beta_0 beta_1 beta ->
          exists v w',
            sample_tau y x beta_0 beta_1 alpha beta w = (Ok v, w'))).
Proof.
  intros contract Hlen. split; [|split]; split.
  - apply sample_beta_0_law, Hlen.
  - intros Hp. apply sample_beta_0_returns; assumption.
  - apply sample_beta_1_law, Hlen.
  - intros Hp. apply sample_beta_1_returns; assumption.
  - apply sample_tau_law, Hlen.
  - intros Hk Hr.
    destruct (sample_tau_returns contract y x beta_0 beta_1 alpha beta w
                Hlen Hk Hr) as (v & w' & E & _).
    eauto.
Qed.

Lemma C7_witness :
  numpy_contract mean_source
  /\ length [2; 0] = length [0; 0]
  /\ (0 < intercept_precision [2; 0] 2 (-1) ->
      exists v w', sample_beta_0 [2; 0] [0; 0] 0 2 0 (-1) (after_draws 0)
                   = (Ok v, w'))
  /\ (0 < posterior_shape [2; 0] (-1 / 2) ->
      0 < posterior_rate [2; 0] [0; 0] 0 0 (-1) ->
      exists v w', sample_tau [2; 0] [0; 0] 0 0 (-1 / 2) (-1) (after_draws 0)
                   = (Ok v, w')).
Proof.
  split; [exact mean_source_contract|]. split; [reflexivity|].
  pose proof (@C7_no_hyperparameter_validation mean_source unit
                [2; 0] [0; 0] 0 0 2 0 (-1) 0 (-1) (-1 / 2) (-1)
                (after_draws 0) mean_source_contract eq_refl) as H.
  split; [exact (proj2 (proj1 H)) | exact (proj2 (proj2 (proj2 H)))].
Defined.

(** C8, as stated, fails: on the scalar prior mean 0 and prior precision 1
    the notebook's sampler returns a draw while the draft raises
    [TypeError], in either order of the two prior arguments. *)
Lemma C8_counterexample :
  sample_beta_0 [0] [0] 0 1 0 1 (after_draws 0) = (Ok 0, after_draws 1)
  /\ Draft.sample_beta_0 [0] [0] 0 1 (Draft.Float 1) (Draft.Float 0)
       (after_draws 0)
     = (Raise TypeError, after_draws 0)
  /\ Draft.sample_beta_0 [0] [0] 0 1 (Draft.Float 0) (Draft.Float 1)
       (after_draws 0)
     = (Raise TypeError, after_draws 0).
Proof.
  split; [|split; reflexivity].
  rewrite sample_beta_0_law by reflexivity.
  unfold normal_mean_precision, intercept_mean, intercept_precision, item.
  simpl. unfold np_random_normal, after_draws. cbn [np_random globals].
  rewrite mean_source_normal by (apply inv_sqrt_pos; lra).
  do 2 f_equal. lra.
Qed.

(** C8, amended: the draft never returns a draw for scalar prior
    arguments (it raises at [len(tau_0)], or at the length assertion
    before it); given the prior precision and the prior mean as
    one-element arrays, in that order, it makes the same draw from the
    same generator state as the notebook's sampler and returns it as a
    one-element array. *)
Theorem C8_draft_needs_one_element_arrays {rs env} (y x : ndarray)
    (beta_1 tau mu_0 tau_0 : R) (w : world rs env) :
  Draft.sample_beta_0 y x beta_1 tau (Draft.Float tau_0) (Draft.Float mu_0) w
  = (Raise (if (length x =? length y)%nat then TypeError else AssertionError),
     w)
  /\ Draft.sample_beta_0 y x beta_1 tau
       (Draft.Array [tau_0]) (Draft.Array [mu_0]) w
     = let (o, w') := sample_beta_0 y x beta_1 tau mu_0 tau_0 w in
       (outcome_map (fun v => Draft.Array [v]) o, w').
Proof.
  split.
  - apply draft_sample_beta_0_float.
  - apply draft_sample_beta_0_array.
Qed.

(** ** Further properties: how [gibbs] fails *)

Section DriverErrors.
Context {rs : RandomSource} {env : Type}.
Implicit Types (w : world rs env) (y x : ndarray) (s : row).

Lemma getitem_none {A} (d : gmap string R) key (k : R -> py rs env A) w :
  d !! key = None -> (r ← getitem d key; k r) w = (Raise (KeyError key), w).
Proof. intros H. unfold getitem. rewrite H. reflexivity. Qed.

Lemma gibbs_after_init y x iters init hypers s w :
  length y = length x ->
  holds_init init s ->
  gibbs y x iters init hypers w
  = (trace ← np_zeros iters;
     r ← for_loop (gibbs_body y x hypers) (range (Z.to_nat iters)) (s, trace);
     ret r.2) w.
Proof.
  intros Hlen (Hb0 & Hb1 & Htau). unfold gibbs.
  rewrite bind_assert_true by (apply Nat.eqb_eq; exact Hlen).
  rewrite (getitem_some _ _ Hb0), (getitem_some _ _ Hb1),
    (getitem_some _ _ Htau).
  destruct s as [[b0 b1] tau]. reflexivity.
Qed.

(** The first iteration, when there is one. *)
Lemma gibbs_first_iteration y x iters init hypers s w :
  length y = length x ->
  holds_init init s ->
  (0 < iters)%Z ->
  gibbs y x iters init hypers w
  = (r ← (r1 ← gibbs_body y x hypers 0 (s, replicate (Z.to_nat iters) (0, 0, 0));
          for_loop (gibbs_body y x hypers) (seq 1 (Z.to_nat iters - 1)) r1);
     ret r.2) w.
Proof.
  intros Hlen Hinit Hit. rewrite (gibbs_after_init y x iters init hypers s)
    by assumption.
  unfold np_zeros. destruct (Z.ltb_spec iters 0) as [?|_]; [lia|].
  rewrite bind_run. cbn [ret]. unfold range.
  destruct (Z.to_nat iters) as [|n] eqn:E; [lia|].
  cbn [seq for_loop]. replace (S n - 1)%nat with n by lia. reflexivity.
Qed.
End DriverErrors.

(** X1: [gibbs] checks the lengths first: on arrays of unequal length it
    raises [AssertionError] without reading [init] or [hypers], without
    looking at [iters] and without touching the generator. *)
Theorem X1_gibbs_length_mismatch {rs env} (y x : ndarray) (iters : Z)
    (init hypers : gmap string R) (w : world rs env) :
  length y <> length x ->
  gibbs y x iters init hypers w = (Raise AssertionError, w).
Proof.
  intros Hne. unfold gibbs. apply bind_assert_false.
  apply Nat.eqb_neq. exact Hne.
Qed.

Lemma X1_witness :
  length [1; 2] <> length [3]
  /\ gibbs [1; 2] [3] (-5) ∅ ∅ (after_draws 0)
     = (Raise AssertionError, after_draws 0).
Proof.
  assert (H : length [1; 2] <> length [3]) by (simpl; lia).
  split; [exact H|].
  exact (@X1_gibbs_length_mismatch mean_source unit [1; 2] [3] (-5) ∅ ∅
           (after_draws 0) H).
Defined.

(** X2: with equal lengths, [gibbs] reads [beta_0], [beta_1] and [tau]
    from [init] in that order; the first missing one is reported by
    [KeyError], before [iters] is looked at and with no draw made. *)
Theorem X2_gibbs_init_key_error {rs env} (y x : ndarray) (iters : Z)
    (init hypers : gmap string R) (key : string) (w : world rs env) :
  length y = length x ->
  first_missing init ["beta_0"; "beta_1"; "tau"] = Some key ->
  gibbs y x iters init hypers w = (Raise (KeyError key), w).
Proof.
  intros Hlen Hmiss. unfold gibbs.
  rewrite bind_assert_true by (apply Nat.eqb_eq; exact Hlen).
  cbn [first_missing] in Hmiss.
  destruct (init !! "beta_0") as [b0|] eqn:E0.
  2:{ inversion Hmiss; subst. apply getitem_none, E0. }
  rewrite (getitem_some _ _ E0).
  destruct (init !! "beta_1") as [b1|] eqn:E1.
  2:{ inversion Hmiss; subst. apply getitem_none, E1. }
  rewrite (getitem_some _ _ E1).
  destruct (init !! "tau") as [tau|] eqn:E2; [discriminate|].
  inversion Hmiss; subst. apply getitem_none, E2.
Qed.

Lemma X2_witness :
  length [1; 3] = length [0; 1]
  /\ first_missing (<["beta_0" := 0]> (<["tau" := 2]> ∅))
       ["beta_0"; "beta_1"; "tau"] = Some "beta_1"
  /\ gibbs [1; 3] [0; 1] (-5) (<["beta_0" := 0]> (<["tau" := 2]> ∅)) hypers
       (after_draws 0)
     = (Raise (KeyError "beta_1"), after_draws 0).
Proof.
  split; [reflexivity|]. split; [reflexivity|].
  exact (@X2_gibbs_init_key_error mean_source unit [1; 3] [0; 1] (-5)
           (<["beta_0" := 0]> (<["tau" := 2]> ∅)) hypers "beta_1"
           (after_draws 0) eq_refl eq_refl).
Defined.

(** X3: with equal lengths and a complete [init], a negative iteration
    count is rejected by [np.zeros] with [ValueError]; [hypers] is not
    read and no draw is made. *)
Theorem X3_gibbs_negative_iterations {rs env} (y x : ndarray) (iters : Z)
    (init hypers : gmap string R) (s0 : row) (w : world rs env) :
  length y = length x ->
  holds_init init s0 ->
  (iters < 0)%Z ->
  gibbs y x iters init hypers w = (Raise ValueError, w).
Proof.
  intros Hlen Hinit Hneg.
  rewrite (gibbs_after_init y x iters init hypers s0) by assumption.
  unfold np_zeros. destruct (Z.ltb_spec iters 0) as [_|?]; [|lia].
  reflexivity.
Qed.

Lemma X3_witness :
  length [1; 3] = length [0; 1]
  /\ holds_init init (0, 0, 2)
  /\ (-1 < 0)%Z
  /\ gibbs [1; 3] [0; 1] (-1) init ∅ (after_draws 0)
     = (Raise ValueError, after_draws 0).
Proof.
  split; [reflexivity|]. split; [exact holds_init_notebook|].
  split; [reflexivity|].
  exact (@X3_gibbs_negative_iterations mean_source unit [1; 3] [0; 1] (-1)
           init ∅ (0, 0, 2) (after_draws 0) eq_refl holds_init_notebook
           eq_refl).
Defined.

(** X4: [hypers] is read inside the loop.  With at least one iteration, a
    missing [mu_0] or [tau_0] is reported by [KeyError] in the first
    iteration, before any draw. *)
Theorem X4_gibbs_intercept_prior_key_error {rs env} (y x : ndarray)
    (iters : Z) (init hypers : gmap string R) (s0 : row) (key : string)
    (w : world rs env) :
  length y = length x ->
  holds_init init s0 ->
  (0 < iters)%Z ->
  first_missing hypers ["mu_0"; "tau_0"] = Some key ->
  gibbs y x iters init hypers w = (Raise (KeyError key), w).
Proof.
  intros Hlen Hinit Hit Hmiss.
  rewrite (gibbs_first_iteration y x iters init hypers s0) by assumption.
  rewrite !bind_run. destruct s0 as [[b0 b1] tau]. unfold gibbs_body.
  cbn [first_missing] in Hmiss.
  destruct (hypers !! "mu_0") as [m|] eqn:E0.
  2:{ inversion Hmiss; subst. rewrite getitem_none by exact E0. reflexivity. }
  rewrite (getitem_some _ _ E0).
  destruct (hypers !! "tau_0") as [t|] eqn:E1; [discriminate|].
  inversion Hmiss; subst. rewrite getitem_none by exact E1. reflexivity.
Qed.

Lemma X4_witness :
  length [1; 3] = length [0; 1]
  /\ holds_init init (0, 0, 2)
  /\ (0 < 3)%Z
  /\ first_missing (<["mu_0" := 0]> ∅) ["mu_0"; "tau_0"] = Some "tau_0"
  /\ gibbs [1; 3] [0; 1] 3 init (<["mu_0" := 0]> ∅) (after_draws 0)
     = (Raise (KeyError "tau_0"), after_draws 0).
Proof.
  split; [reflexivity|]. split; [exact holds_init_notebook|].
  split; [reflexivity|]. split; [reflexivity|].
  exact (@X4_gibbs_intercept_prior_key_error mean_source unit [1; 3] [0; 1] 3
           init (<["mu_0" := 0]> ∅) (0, 0, 2) "tau_0" (after_draws 0)
           eq_refl holds_init_notebook eq_refl eq_refl).
Defined.

(** X5: the slope prior is looked up only after the intercept has been
    drawn: when [mu_0] and [tau_0] are present and [mu_1] or [tau_1] is
    missing, [gibbs] raises [KeyError] after the first intercept draw has
    consumed generator state. *)
Theorem X5_gibbs_slope_prior_key_error {rs env} (y x : ndarray)
    (iters : Z) (init hypers : gmap string R) (s0 : row) (mu_0 tau_0 : R)
    (key : string) (beta_0 : R) (w w1 : world rs env) :
  length y = length x ->
  holds_init init s0 ->
  (0 < iters)%Z ->
  hypers !! "mu_0" = Some mu_0 ->
  hypers !! "tau_0" = Some tau_0 ->
  first_missing hypers ["mu_1"; "tau_1"] = Some key ->
  sample_beta_0 y x s0.1.2 s0.2 mu_0 tau_0 w = (Ok beta_0, w1) ->
  gibbs y x iters init hypers w = (Raise (KeyError key), w1).
Proof.
  intros Hlen Hinit Hit Hm0 Ht0 Hmiss Hdraw.
  rewrite (gibbs_first_iteration y x iters init hypers s0) by assumption.
  rewrite !bind_run. destruct s0 as [[b0 b1] tau]. unfold gibbs_body.
  rewrite (getitem_some _ _ Hm0), (getitem_some _ _ Ht0).
  cbn [fst snd] in Hdraw. rewrite bind_run, Hdraw.
  cbn [first_missing] in Hmiss.
  destruct (hypers !! "mu_1") as [m|] eqn:E0.
  2:{ inversion Hmiss; subst. rewrite getitem_none by exact E0. reflexivity. }
  rewrite (getitem_some _ _ E0).
  destruct (hypers !! "tau_1") as [t|] eqn:E1; [discriminate|].
  inversion Hmiss; subst. rewrite getitem_none by exact E1. reflexivity.
Qed.

Lemma worked_intercept_draw :
  sample_beta_0 [1; 3] [0; 1] 0 2 0 1 (after_draws 0)
  = (Ok (8 / 5), after_draws 1).
Proof.
  destruct worked_intercept as [Hp Hm].
  rewrite sample_beta_0_law by reflexivity.
  unfold normal_mean_precision. rewrite Hm, Hp.
  unfold np_random_normal, after_draws. cbn [np_random globals].
  rewrite mean_source_normal by (apply inv_sqrt_pos; lra). reflexivity.
Qed.

Lemma X5_witness :
  length [1; 3] = length [0; 1]
  /\ holds_init init (0, 0, 2)
  /\ (0 < 3)%Z
  /\ (<["mu_0" := 0]> (<["tau_0" := 1]> ∅) : gmap string R) !! "mu_0" = Some 0
  /\ (<["mu_0" := 0]> (<["tau_0" := 1]> ∅) : gmap string R) !! "tau_0" = Some 1
  /\ first_missing (<["mu_0" := 0]> (<["tau_0" := 1]> ∅)) ["mu_1"; "tau_1"]
     = Some "mu_1"
  /\ sample_beta_0 [1; 3] [0; 1] 0 2 0 1 (after_draws 0)
     = (Ok (8 / 5), after_draws 1)
  /\ gibbs [1; 3] [0; 1] 3 init (<["mu_0" := 0]> (<["tau_0" := 1]> ∅))
       (after_draws 0)
     = (Raise (KeyError "mu_1"), after_draws 1).
Proof.
  repeat (split; [first [reflexivity | exact holds_init_notebook
                        | exact worked_intercept_draw]|]).
  exact (@X5_gibbs_slope_prior_key_error mean_source unit [1; 3] [0; 1] 3
           init (<["mu_0" := 0]> (<["tau_0" := 1]> ∅)) (0, 0, 2) 0 1 "mu_1"
           (8 / 5) (after_draws 0) (after_draws 1)
           eq_refl holds_init_notebook eq_refl eq_refl eq_refl eq_refl
           worked_intercept_draw).
Defined.

(** ** Further properties: the chain *)

Section Chain.
Context {rs : RandomSource} {env : Type}.
Implicit Types (w : world rs env) (y x : ndarray) (s : row)
  (h : hyperparameters).

Lemma bind_ret_r {A} (c : py rs env A) w : (a ← c; ret a) w = c w.
Proof. rewrite bind_run. destruct (c w) as [[a|e] w']; reflexivity. Qed.

(** The loop never reads the intercept it is started with. *)
Lemma for_loop_ignores_intercept y x hypers (its : list nat)
    (b0 b0' b1 tau : R) (trace : list row) w :
  (r ← for_loop (gibbs_body y x hypers) its (b0, b1, tau, trace); ret r.2) w
  = (r ← for_loop (gibbs_body y x hypers) its (b0', b1, tau, trace);
     ret r.2) w.
Proof. destruct its as [|it its]; reflexivity. Qed.

(** [k + m] transitions are [k] transitions followed by [m] more from
    the state reached. *)
Lemma run_chain_app y x h (k m : nat) : forall s w,
  run_chain (k + m) y x h s w
  = (r1 ← run_chain k y x h s;
     r2 ← run_chain m y x h (default s (last r1));
     ret (r1 ++ r2)) w.
Proof.
  induction k as [|k IH]; intros s w.
  - cbn [Nat.add run_chain]. rewrite bind_run. cbn [ret last default app].
    symmetry. apply bind_ret_r.
  - cbn [Nat.add run_chain]. repeat rewrite bind_run.
    destruct (transition y x h s w) as [[s1|e] w1]; [|reflexivity].
    repeat rewrite bind_run. rewrite IH. repeat rewrite bind_run.
    destruct (run_chain k y x h s1 w1) as [[r1|e] w2]; [|reflexivity].
    cbn [ret].
    replace (default s (last (s1 :: r1))) with (default s1 (last r1))
      by (destruct r1 as [|r r1]; [reflexivity|];
          rewrite !last_cons; destruct (last r1); reflexivity).
    repeat rewrite bind_run.
    destruct (run_chain m y x h (default s1 (last r1)) w2) as [[r2|e] w3];
      reflexivity.
Qed.
End Chain.

(** X6: the value stored under [init["beta_0"]] is never used: two [init]
    dicts that both have the key and agree on [beta_1] and [tau] give the
    same outcome and the same final world. *)
Theorem X6_gibbs_ignores_initial_intercept {rs env} (y x : ndarray)
    (iters : Z) (init1 init2 hypers : gmap string R) (w : world rs env) :
  is_Some (init1 !! "beta_0") ->
  is_Some (init2 !! "beta_0") ->
  init1 !! "beta_1" = init2 !! "beta_1" ->
  init1 !! "tau" = init2 !! "tau" ->
  gibbs y x iters init1 hypers w = gibbs y x iters init2 hypers w.
Proof.
  intros [b0 E1] [b0' E2] Hb1 Htau. unfold gibbs.
  destruct (length y =? length x)%nat eqn:Hlen;
    [|rewrite !bind_assert_false by reflexivity; reflexivity].
  rewrite !bind_assert_true by reflexivity.
  rewrite (getitem_some _ _ E1), (getitem_some _ _ E2).
  destruct (init2 !! "beta_1") as [b1|] eqn:F1.
  2:{ rewrite (getitem_none _ _ _ _ Hb1), (getitem_none _ _ _ _ F1).
      reflexivity. }
  rewrite (getitem_some _ _ Hb1), (getitem_some _ _ F1).
  destruct (init2 !! "tau") as [tau|] eqn:F2.
  2:{ rewrite (getitem_none _ _ _ _ Htau), (getitem_none _ _ _ _ F2).
      reflexivity. }
  rewrite (getitem_some _ _ Htau), (getitem_some _ _ F2).
  apply bind_ext. intros trace w'.
  apply (for_loop_ignores_intercept y x hypers).
Qed.

Lemma X6_witness :
  is_Some (init !! "beta_0")
  /\ is_Some ((<["beta_0" := 100]> init) !! "beta_0")
  /\ init !! "beta_1" = (<["beta_0" := 100]> init) !! "beta_1"
  /\ init !! "tau" = (<["beta_0" := 100]> init) !! "tau"
  /\ gibbs [1; 3] [0; 1] 2 init hypers (after_draws 0)
     = gibbs [1; 3] [0; 1] 2 (<["beta_0" := 100]> init) hypers (after_draws 0).
Proof.
  assert (H1 : is_Some (init !! "beta_0")) by (exists 0; reflexivity).
  assert (H2 : is_Some ((<["beta_0" := 100]> init) !! "beta_0"))
    by (exists 100; reflexivity).
  split; [exact H1|]. split; [exact H2|].
  split; [reflexivity|]. split; [reflexivity|].
  exact (@X6_gibbs_ignores_initial_intercept mean_source unit [1; 3] [0; 1] 2
           init (<["beta_0" := 100]> init) hypers (after_draws 0)
           H1 H2 eq_refl eq_refl).
Defined.

Lemma mean_source_gamma_rejects (k theta : R) (n : nat) :
  theta <= 0 -> gamma mean_source k theta n = (Raise ValueError, n).
Proof.
  intros Ht. simpl. destruct (Rlt_dec 0 k); [|reflexivity].
  destruct (Rlt_dec 0 theta); [lra | reflexivity].
Qed.

(** The notebook's hyperparameters with the Gamma rate replaced by -100:
    the posterior rate of the first iteration is negative and the
    generator rejects the scale. *)
Lemma worked_failing_transition :
  transition [1; 3] [0; 1]
    {| prior_mean_intercept := 0; prior_precision_intercept := 1;
       prior_mean_slope := 0; prior_precision_slope := 1;
       shape := 2; rate := -100 |}
    (0, 0, 2) (after_draws 0)
  = (Raise ValueError, after_draws 2).
Proof.
  destruct worked_intercept as [Hp0 Hm0], worked_slope as [Hp1 Hm1].
  unfold transition.
  cbn [fst snd prior_mean_intercept prior_precision_intercept
       prior_mean_slope prior_precision_slope shape rate].
  rewrite !bind_run, sample_beta_0_law by reflexivity.
  unfold normal_mean_precision. rewrite Hm0, Hp0.
  unfold np_random_normal at 1. unfold after_draws. cbn [np_random globals].
  rewrite mean_source_normal by (apply inv_sqrt_pos; lra).
  rewrite !bind_run, sample_beta_1_law by reflexivity.
  unfold normal_mean_precision. rewrite Hm1, Hp1.
  unfold np_random_normal at 1. cbn [np_random globals].
  rewrite mean_source_normal by (apply inv_sqrt_pos; lra).
  rewrite !bind_run, sample_tau_law by reflexivity.
  unfold gamma_shape_rate.
  assert (Hr : posterior_rate [1; 3] [0; 1] (8 / 5) (14 / 15) (-100)
               = - (4487 / 45)).
  { unfold posterior_rate, residual_sum_of_squares, item. simpl. field. }
  rewrite Hr. unfold np_random_gamma. cbn [np_random globals].
  rewrite mean_source_gamma_rejects; [reflexivity|].
  replace (1 / - (4487 / 45)) with (- (45 / 4487)) by field. lra.
Qed.

(** X7: if the first [k] iterations succeed and a sampler raises in
    iteration [k + 1 <= iters], [gibbs] raises that exception and leaves
    the generator in the state reached at the failure: no trace, not even
    the [k] completed rows, is returned. *)
Theorem X7_gibbs_failure_propagates {rs env} (y x : ndarray) (iters : Z)
    (init hypers : gmap string R) (s0 : row) (h : hyperparameters)
    (k : nat) (rows : list row) (e : exn) (w w1 w2 : world rs env) :
  length y = length x ->
  holds_init init s0 ->
  holds_hypers hypers h ->
  (k < Z.to_nat iters)%nat ->
  run_chain k y x h s0 w = (Ok rows, w1) ->
  transition y x h (default s0 (last rows)) w1 = (Raise e, w2) ->
  gibbs y x iters init hypers w = (Raise e, w2).
Proof.
  intros Hlen Hinit Hh Hk Hrows Hfail.
  rewrite (gibbs_run_chain y x iters init hypers s0 h) by (assumption || lia).
  replace (Z.to_nat iters) with (k + S (Z.to_nat iters - S k))%nat by lia.
  rewrite run_chain_app, bind_run, Hrows.
  cbn [run_chain]. rewrite !bind_run, Hfail. reflexivity.
Qed.

Lemma X7_witness :
  let h := {| prior_mean_intercept := 0; prior_precision_intercept := 1;
              prior_mean_slope := 0; prior_precision_slope := 1;
              shape := 2; rate := -100 |} in
  length [1; 3] = length [0; 1]
  /\ holds_init init (0, 0, 2)
  /\ holds_hypers (<["beta" := -100]> hypers) h
  /\ (0 < Z.to_nat 5)%nat
  /\ run_chain 0 [1; 3] [0; 1] h (0, 0, 2) (after_draws 0)
     = (Ok [], after_draws 0)
  /\ transition [1; 3] [0; 1] h (default (0, 0, 2) (last [])) (after_draws 0)
     = (Raise ValueError, after_draws 2)
  /\ gibbs [1; 3] [0; 1] 5 init (<["beta" := -100]> hypers) (after_draws 0)
     = (Raise ValueError, after_draws 2).
Proof.
  intros h.
  assert (Hh : holds_hypers (<["beta" := -100]> hypers) h)
    by (repeat split).
  assert (Hk : (0 < Z.to_nat 5)%nat) by lia.
  repeat (split; [first [reflexivity | exact holds_init_notebook | exact Hh
                        | exact Hk | exact worked_failing_transition]|]).
  exact (@X7_gibbs_failure_propagates mean_source unit [1; 3] [0; 1] 5
           init (<["beta" := -100]> hypers) (0, 0, 2) h 0 [] ValueError
           (after_draws 0) (after_draws 0) (after_draws 2)
           eq_refl holds_init_notebook Hh Hk eq_refl
           worked_failing_transition).
Defined.

(** X8: a chain can be resumed.  If [gibbs] with [K] iterations returns
    [t1] ending in the row [r], and a second call with [M] iterations
    started from [r] in the generator state left by the first returns
    [t2], then one call with [K + M] iterations returns [t1 ++ t2]. *)
Theorem X8_gibbs_resumes {rs env} (y x : ndarray) (K M : Z)
    (init init' hypers : gmap string R) (s0 r : row) (h : hyperparameters)
    (t1 t2 : list row) (w w1 w2 : world rs env) :
  length y = length x ->
  holds_hypers hypers h ->
  holds_init init s0 ->
  holds_init init' r ->
  (0 <= K)%Z ->
  (0 <= M)%Z ->
  gibbs y x K init hypers w = (Ok t1, w1) ->
  last t1 = Some r ->
  gibbs y x M init' hypers w1 = (Ok t2, w2) ->
  gibbs y x (K + M) init hypers w = (Ok (t1 ++ t2), w2).
Proof.
  intros Hlen Hh Hinit Hinit' HK HM H1 Hlast H2.
  rewrite (gibbs_run_chain y x K init hypers s0 h) in H1 by assumption.
  rewrite (gibbs_run_chain y x M init' hypers r h) in H2 by assumption.
  rewrite (gibbs_run_chain y x (K + M) init hypers s0 h)
    by (assumption || lia).
  rewrite Z2Nat.inj_add by assumption.
  rewrite run_chain_app, bind_run, H1, Hlast.
  change (default s0 (Some r)) with r.
  rewrite bind_run, H2. reflexivity.
Qed.

(** One iteration on the stand-in generator, for any state and any
    number of earlier draws. *)
Lemma mean_source_transition (y x : ndarray) (h : hyperparameters) (s : row)
    (n : nat) (m0 m1 k r : R) :
  length y = length x ->
  intercept_mean y x s.1.2 s.2
    (prior_mean_intercept h) (prior_precision_intercept h) = m0 ->
  slope_mean y x m0 s.2 (prior_mean_slope h) (prior_precision_slope h) = m1 ->
  posterior_shape y (shape h) = k ->
  posterior_rate y x m0 m1 (rate h) = r ->
  0 < intercept_precision y s.2 (prior_precision_intercept h) ->
  0 < slope_precision y x s.2 (prior_precision_slope h) ->
  0 < k ->
  0 < r ->
  transition y x h s (after_draws n)
  = (Ok (m0, m1, k * (1 / r)), after_draws (S (S (S n)))).
Proof.
  intros Hlen Hm0 Hm1 Hk Hr Hp0 Hp1 Hkpos Hrpos. unfold transition.
  rewrite !bind_run, sample_beta_0_law by exact Hlen.
  unfold normal_mean_precision. rewrite Hm0.
  unfold np_random_normal at 1. unfold after_draws. cbn [np_random globals].
  rewrite mean_source_normal by (apply inv_sqrt_pos; exact Hp0).
  rewrite !bind_run, sample_beta_1_law by exact Hlen.
  unfold normal_mean_precision. rewrite Hm1.
  unfold np_random_normal at 1. cbn [np_random globals].
  rewrite mean_source_normal by (apply inv_sqrt_pos; exact Hp1).
  rewrite !bind_run, sample_tau_law by exact Hlen.
  unfold gamma_shape_rate. rewrite Hk, Hr.
  unfold np_random_gamma. cbn [np_random globals].
  rewrite mean_source_gamma;
    [reflexivity | exact Hkpos
    | apply Rdiv_lt_0_compat; [lra | exact Hrpos]].
Qed.

(** Two iterations on the single observation (x, y) = (0, 1): the first
    from the notebook's [init], the second resumed from the row the first
    one produced. *)
Lemma worked_resume_first :
  gibbs [1] [0] 1 init hypers (after_draws 0)
  = (Ok [(2 / 3, 0, 45 / 19)], after_draws 3).
Proof.
  rewrite (gibbs_run_chain [1] [0] 1 init hypers (0, 0, 2)
             notebook_hyperparameters)
    by (reflexivity || lia || apply holds_init_notebook
        || apply holds_hypers_notebook).
  change (Z.to_nat 1) with 1%nat. cbn [run_chain]. rewrite bind_run.
  rewrite (mean_source_transition [1] [0] notebook_hyperparameters (0, 0, 2)
             0 (2 / 3) 0 (5 / 2) (19 / 18));
    try reflexivity;
    try (unfold intercept_mean, intercept_precision, slope_mean,
           slope_precision, posterior_shape, posterior_rate,
           residual_sum_of_squares, item; simpl; first [lra | field]).
  unfold mbind, py_bind, bind, ret.
  replace (5 / 2 * (1 / (19 / 18))) with (45 / 19) by field. reflexivity.
Qed.

Lemma worked_resume_second :
  gibbs [1] [0] 1
    (<["beta_0" := 2 / 3]> (<["beta_1" := 0]> (<["tau" := 45 / 19]> ∅)))
    hypers (after_draws 3)
  = (Ok [(45 / 64, 0, 20480 / 8553)], after_draws 6).
Proof.
  rewrite (gibbs_run_chain [1] [0] 1 _ hypers (2 / 3, 0, 45 / 19)
             notebook_hyperparameters)
    by (reflexivity || lia || (repeat split) || apply holds_hypers_notebook).
  change (Z.to_nat 1) with 1%nat. cbn [run_chain]. rewrite bind_run.
  rewrite (mean_source_transition [1] [0] notebook_hyperparameters
             (2 / 3, 0, 45 / 19) 3 (45 / 64) 0 (5 / 2) (8553 / 8192));
    try reflexivity;
    try (unfold intercept_mean, intercept_precision, slope_mean,
           slope_precision, posterior_shape, posterior_rate,
           residual_sum_of_squares, item; simpl; first [lra | field]).
  unfold mbind, py_bind, bind, ret.
  replace (5 / 2 * (1 / (8553 / 8192))) with (20480 / 8553) by field.
  reflexivity.
Qed.

Lemma X8_witness :
  length [1] = length [0]
  /\ holds_hypers hypers notebook_hyperparameters
  /\ holds_init init (0, 0, 2)
  /\ holds_init
       (<["beta_0" := 2 / 3]> (<["beta_1" := 0]> (<["tau" := 45 / 19]> ∅)))
       (2 / 3, 0, 45 / 19)
  /\ (0 <= 1)%Z
  /\ (0 <= 1)%Z
  /\ gibbs [1] [0] 1 init hypers (after_draws 0)
     = (Ok [(2 / 3, 0, 45 / 19)], after_draws 3)
  /\ last [(2 / 3, 0, 45 / 19)] = Some (2 / 3, 0, 45 / 19)
  /\ gibbs [1] [0] 1
       (<["beta_0" := 2 / 3]> (<["beta_1" := 0]> (<["tau" := 45 / 19]> ∅)))
       hypers (after_draws 3)
     = (Ok [(45 / 64, 0, 20480 / 8553)], after_draws 6)
  /\ gibbs [1] [0] (1 + 1) init hypers (after_draws 0)
     = (Ok ([(2 / 3, 0, 45 / 19)] ++ [(45 / 64, 0, 20480 / 8553)]),
        after_draws 6).
Proof.
  assert (Hi : holds_init
                 (<["beta_0" := 2 / 3]>
                    (<["beta_1" := 0]> (<["tau" := 45 / 19]> ∅)))
                 (2 / 3, 0, 45 / 19))
    by (repeat split).
  assert (H1 : (0 <= 1)%Z) by lia.
  repeat (split; [first [reflexivity | exact holds_init_notebook
                        | exact holds_hypers_notebook | exact Hi
                        | exact H1 | exact worked_resume_first
                        | exact worked_resume_second]|]).
  exact (@X8_gibbs_resumes mean_source unit [1] [0] 1 1
           init _ hypers (0, 0, 2) (2 / 3, 0, 45 / 19)
           notebook_hyperparameters [(2 / 3, 0, 45 / 19)]
           [(45 / 64, 0, 20480 / 8553)]
           (after_draws 0) (after_draws 3) (after_draws 6)
           eq_refl holds_hypers_notebook holds_init_notebook Hi H1 H1
           worked_resume_first eq_refl worked_resume_second).
Defined.

(** ** Further properties: the samplers at the edges of their domain *)

Lemma broadcast_singleton_l {A B C} (f : A -> B -> C) (a0 : A) (b : list B) :
  broadcast f [a0] b = Ok (f a0 <$> b).
Proof.
  unfold broadcast. destruct (length [a0] =? length b)%nat eqn:E.
  - apply Nat.eqb_eq in E. destruct b as [|b0 [|b1 b]]; try discriminate.
    reflexivity.
  - reflexivity.
Qed.

Lemma inv_sqrt_le (a b : R) : 0 < a -> a <= b -> 1 / sqrt b <= 1 / sqrt a.
Proof.
  intros Ha Hab. unfold Rdiv. rewrite !Rmult_1_l.
  apply Rinv_le_contravar; [apply sqrt_lt_R0; exact Ha|].
  apply sqrt_le_1_alt. exact Hab.
Qed.



(** X10: [sample_tau] on arrays whose lengths differ and are both other
    than 1 stops with the broadcasting [ValueError] and makes no draw. *)
Theorem X10_sample_tau_shape_mismatch {rs env} (y x : ndarray)
    (beta_0 beta_1 alpha beta : R) (w : world rs env) :
  length y <> length x ->
  length y <> 1%nat ->
  length x <> 1%nat ->
  sample_tau y x beta_0 beta_1 alpha beta w = (Raise ValueError, w).
Proof. apply sample_tau_mismatch. Qed.

Lemma X10_witness :
  length [1; 2; 3] <> length [1; 2]
  /\ length [1; 2; 3] <> 1%nat
  /\ length [1; 2] <> 1%nat
  /\ sample_tau [1; 2; 3] [1; 2] 0 0 2 1 (after_draws 0)
     = (Raise ValueError, after_draws 0).
Proof.
  assert (H1 : length [1; 2; 3] <> length [1; 2]) by (simpl; lia).
  assert (H2 : length [1; 2; 3] <> 1%nat) by (simpl; lia).
  assert (H3 : length [1; 2] <> 1%nat) by (simpl; lia).
  split; [exact H1|]. split; [exact H2|]. split; [exact H3|].
  exact (@X10_sample_tau_shape_mismatch mean_source unit [1; 2; 3] [1; 2]
           0 0 2 1 (after_draws 0) H1 H2 H3).
Defined.

(** X11: [sample_tau] accepts a one-element array on either side and
    broadcasts it.  A one-element [x] is paired with every [y_i].  A
    one-element [y] is paired with every [x_i], and then the posterior
    shape counts N = 1 observation while the posterior rate sums
    [len(x)] squared residuals. *)
Theorem X11_sample_tau_broadcasts_singletons {rs env} (y x : ndarray)
    (y0 x0 beta_0 beta_1 alpha beta : R) (w : world rs env) :
  sample_tau y [x0] beta_0 beta_1 alpha beta w
  = np_random_gamma (alpha + INR (length y) / 2)
      (1 / (beta + sum_upto (length y)
                     (fun i => (item y i - beta_0 - beta_1 * x0) ^ 2) / 2)) w
  /\ sample_tau [y0] x beta_0 beta_1 alpha beta w
     = np_random_gamma (alpha + 1 / 2)
         (1 / (beta + sum_upto (length x)
                        (fun i => (y0 - beta_0 - beta_1 * item x i) ^ 2) / 2))
         w.
Proof.
  split; [apply sample_tau_broadcast_x|].
  unfold sample_tau. cbn [fmap list_fmap length INR].
  erewrite bind_lift_ok by apply broadcast_singleton_l.
  erewrite bind_lift_ok by apply broadcast_self.
  rewrite <- list_fmap_compose.
  rewrite zip_with_diag, <- list_fmap_compose, np_sum_fmap.
  rewrite (sum_upto_ext _ _
    (fun i => (y0 - beta_0 - beta_1 * item x i) ^ 2))
    by (intros; unfold compose; ring).
  reflexivity.
Qed.

(** X12: the draft of [sample_beta_0] reaches the generator only when
    the observation arrays have equal length and both prior arguments
    are one-element arrays; in every other case it raises
    [AssertionError] or [TypeError] and makes no draw. *)
Theorem X12_draft_guards {rs env} (y x : ndarray) (beta_1 tau : R)
    (tau_0 mu_0 : Draft.value) (w : world rs env) :
  ~ (length x = length y
     /\ exists t m, tau_0 = Draft.Array [t] /\ mu_0 = Draft.Array [m]) ->
  exists e,
    (e = AssertionError \/ e = TypeError)
    /\ Draft.sample_beta_0 y x beta_1 tau tau_0 mu_0 w = (Raise e, w).
Proof.
  intros Hbad. unfold Draft.sample_beta_0.
  destruct (Nat.eqb_spec (length x) (length y)) as [Hlen|Hlen];
    [|exists AssertionError; split; [left|]; reflexivity].
  rewrite bind_assert_true by reflexivity.
  destruct tau_0 as [t|[|t [|t' a]]];
    try (exists TypeError; split; [right|]; reflexivity);
    try (exists AssertionError; split; [left|]; reflexivity).
  destruct mu_0 as [m|[|m [|m' b]]];
    try (exists TypeError; split; [right|]; reflexivity);
    try (exists AssertionError; split; [left|]; reflexivity).
  exfalso. apply Hbad. eauto.
Qed.

Lemma X12_witness :
  ~ (length [0] = length [0]
     /\ exists t m, Draft.Array [1; 2] = Draft.Array [t]
                    /\ Draft.Array [0] = Draft.Array [m])
  /\ exists e,
       (e = AssertionError \/ e = TypeError)
       /\ Draft.sample_beta_0 [0] [0] 0 1 (Draft.Array [1; 2])
            (Draft.Array [0]) (after_draws 0)
          = (Raise e, after_draws 0).
Proof.
  assert (H : ~ (length [0] = length [0]
                 /\ exists t m, Draft.Array [1; 2] = Draft.Array [t]
                                /\ Draft.Array [0] = Draft.Array [m])).
  { intros (_ & t & m & Ht & _). discriminate Ht. }
  split; [exact H|].
  exact (@X12_draft_guards mean_source unit [0] [0] 0 1 (Draft.Array [1; 2])
           (Draft.Array [0]) (after_draws 0) H).
Defined.

(** ** Further properties: what the generator is asked for *)

(** X13: on valid input the Normal samplers never ask the generator for
    a standard deviation above the prior's: the request lies in
    [0, 1/sqrt(prior precision)]; and [sample_tau] never asks for a shape
    below [alpha]. *)
Theorem X13_posterior_no_wider_than_prior {rs env} (y x : ndarray)
    (beta_0 beta_1 tau mu_0 tau_0 mu_1 tau_1 alpha beta : R)
    (w : world rs env) :
  length y = length x ->
  0 < tau_0 ->
  0 < tau_1 ->
  0 < tau ->
  0 < alpha ->
  (exists m sd,
      sample_beta_0 y x beta_1 tau mu_0 tau_0 w = np_random_normal m sd w
      /\ 0 <= sd <= 1 / sqrt tau_0)
  /\ (exists m sd,
         sample_beta_1 y x beta_0 tau mu_1 tau_1 w = np_random_normal m sd w
         /\ 0 <= sd <= 1 / sqrt tau_1)
  /\ (exists k theta,
         sample_tau y x beta_0 beta_1 alpha beta w = np_random_gamma k theta w
         /\ alpha <= k).
Proof.
  intros Hlen H0 H1 Ht Ha. split; [|split].
  - eexists _, _. split; [apply sample_beta_0_law, Hlen|].
    split;
      [apply Rlt_le, inv_sqrt_pos, intercept_precision_pos; assumption|].
    apply inv_sqrt_le; [exact H0|]. unfold intercept_precision.
    pose proof (INR_nonneg (length y)). nra.
  - eexists _, _. split; [apply sample_beta_1_law, Hlen|].
    split; [apply Rlt_le, inv_sqrt_pos, slope_precision_pos; assumption|].
    apply inv_sqrt_le; [exact H1|]. unfold slope_precision.
    assert (0 <= sum_upto (length y) (fun i => item x i ^ 2))
      by (apply sum_upto_nonneg; intros i _; apply pow2_ge_0).
    nra.
  - eexists _, _. split; [apply sample_tau_law, Hlen|].
    pose proof (INR_nonneg (length y)). unfold posterior_shape. lra.
Qed.

Lemma X13_witness :
  length [1; 3] = length [0; 1]
  /\ 0 < 1 /\ 0 < 1 /\ 0 < 2 /\ 0 < 2
  /\ exists m sd,
       sample_beta_0 [1; 3] [0; 1] 0 2 0 1 (after_draws 0)
       = np_random_normal m sd (after_draws 0)
       /\ 0 <= sd <= 1 / sqrt 1.
Proof.
  assert (H1 : 0 < 1) by lra. assert (H2 : 0 < 2) by lra.
  split; [reflexivity|]. repeat (split; [first [exact H1 | exact H2]|]).
  exact (proj1 (@X13_posterior_no_wider_than_prior mean_source unit
                  [1; 3] [0; 1] 0 0 2 0 1 0 1 2 1 (after_draws 0)
                  eq_refl H1 H1 H2 H2)).
Defined.




(** X15: on float64 the order of the observations matters.  Whatever
    the generator, [sample_beta_0] on y = [1e16, 1, -1e16] (all x_i = 0,
    mu_0 = 0, tau_0 = tau = 1) asks for a Normal around 0.0, and on the
    same observations in the order y = [1e16, -1e16, 1] it asks for a
    Normal around 0.25, because [np.sum] accumulates in index order. *)
Theorem X15_observation_order_matters_in_float64 {rs env}
    (g : F64.Generator rs) (w : world rs env) :
  [1e16; 1; -1e16]%float ≡ₚ [1e16; -1e16; 1]%float
  /\ F64.sample_beta_0 g [1e16; 1; -1e16]%float [0; 0; 0]%float 0 1 0 1 w
     = F64.np_random_normal g 0 0.5 w
  /\ F64.sample_beta_0 g [1e16; -1e16; 1]%float [0; 0; 0]%float 0 1 0 1 w
     = F64.np_random_normal g 0.25 0.5 w
  /\ (0 =? 0.25)%float = false.
Proof.
  split; [apply perm_skip, perm_swap|].
  repeat split; vm_compute; reflexivity.
Qed.

(** ** Further properties: the requests made to the generator *)

Lemma logged_contract (rs : RandomSource) :
  numpy_contract rs -> numpy_contract (logged rs).
Proof.
  intros [Hn Hg]. split.
  - intros loc scale [s log] Hs. simpl.
    destruct (Hn loc scale s Hs) as (v & s' & ->). eauto.
  - intros k theta [s log] Hk Ht. simpl.
    destruct (Hg k theta s Hk Ht) as (v & s' & -> & Hv). eauto.
Qed.

Section Logged.
Context {rs : RandomSource} {env : Type}.
Implicit Types (y x : ndarray) (h : hyperparameters) (g : env)
  (log : list call).

Lemma logged_normal_run (m sd : R) (s : rng rs) log g :
  np_random_normal (rs := logged rs) m sd (logged_world s log g)
  = ((normal rs m sd s).1,
     logged_world (normal rs m sd s).2 (log ++ [CallNormal m sd]) g).
Proof.
  unfold np_random_normal, logged_world. simpl.
  destruct (normal rs m sd s). reflexivity.
Qed.

Lemma logged_gamma_run (k theta : R) (s : rng rs) log g :
  np_random_gamma (rs := logged rs) k theta (logged_world s log g)
  = ((gamma rs k theta s).1,
     logged_world (gamma rs k theta s).2 (log ++ [CallGamma k theta]) g).
Proof.
  unfold np_random_gamma, logged_world. simpl.
  destruct (gamma rs k theta s). reflexivity.
Qed.

Lemma logged_transition y x h (prev r : row) (s : rng rs) log g
    (w' : world (logged rs) env) :
  length y = length x ->
  transition y x h prev (logged_world s log g) = (Ok r, w') ->
  exists s', w' = logged_world s' (log ++ transition_calls y x h prev r) g.
Proof.
  intros Hlen. unfold transition.
  rewrite bind_run, sample_beta_0_law by exact Hlen.
  unfold normal_mean_precision. rewrite logged_normal_run.
  destruct (normal rs _ _ s) as [[v0|e] s0]; cbn [fst snd]; [|discriminate].
  rewrite bind_run, sample_beta_1_law by exact Hlen.
  unfold normal_mean_precision. rewrite logged_normal_run.
  destruct (normal rs _ _ s0) as [[v1|e] s1]; cbn [fst snd]; [|discriminate].
  rewrite bind_run, sample_tau_law by exact Hlen.
  unfold gamma_shape_rate. rewrite logged_gamma_run.
  destruct (gamma rs _ _ s1) as [[v2|e] s2]; cbn [fst snd]; [|discriminate].
  intros H. inversion H; subst. exists s2.
  unfold transition_calls. cbn [fst snd]. rewrite <- !app_assoc. reflexivity.
Qed.

Lemma logged_run_chain y x h (k : nat) : forall (prev : row) (rows : list row)
    (s : rng rs) log g (w' : world (logged rs) env),
  length y = length x ->
  run_chain k y x h prev (logged_world s log g) = (Ok rows, w') ->
  exists s', w' = logged_world s' (log ++ chain_calls y x h prev rows) g.
Proof.
  induction k as [|k IH]; intros prev rows s log g w' Hlen Hrun.
  - inversion Hrun; subst. exists s. cbn [chain_calls].
    rewrite app_nil_r. reflexivity.
  - cbn [run_chain] in Hrun. rewrite bind_run in Hrun.
    destruct (transition y x h prev (logged_world s log g)) as [[r|e] w1] eqn:Ht;
      [|discriminate].
    destruct (logged_transition y x h prev r s log g w1 Hlen Ht) as (s1 & ->).
    rewrite bind_run in Hrun.
    destruct (run_chain k y x h r _) as [[rest|e] w2] eqn:Hr; [|discriminate].
    destruct (IH r rest s1 _ g w2 Hlen Hr) as (s2 & ->).
    inversion Hrun; subst. exists s2. cbn [chain_calls].
    rewrite <- app_assoc. reflexivity.
Qed.

Lemma length_chain_calls y x h (rows : list row) : forall prev : row,
  length (chain_calls y x h prev rows) = (3 * length rows)%nat.
Proof.
  induction rows as [|r rows IH]; intros prev; [reflexivity|].
  cbn [chain_calls]. rewrite length_app, IH. simpl. lia.
Qed.
End Logged.

(** X16: on valid input [gibbs] makes exactly three requests to the
    generator per iteration, in the order Normal (intercept), Normal
    (slope), Gamma (precision); the parameters of each request are the
    posterior parameters computed from the rows of the returned trace,
    so the trace determines the whole list of requests. *)
Theorem X16_gibbs_generator_requests {rs env} (y x : ndarray) (K : Z)
    (init hypers : gmap string R) (s0 : row) (h : hyperparameters)
    (s : rng rs) (log : list call) (g : env) :
  numpy_contract rs ->
  length y = length x ->
  (0 <= K)%Z ->
  holds_init init s0 ->
  0 < s0.2 ->
  holds_hypers hypers h ->
  valid_hypers h ->
  exists (trace : list row) (s' : rng rs),
    gibbs (rs := logged rs) y x K init hypers (logged_world s log g)
    = (Ok trace, logged_world s' (log ++ chain_calls y x h s0 trace) g)
    /\ length (chain_calls y x h s0 trace) = (3 * Z.to_nat K)%nat.
Proof.
  intros contract Hlen HK Hinit Htau Hh Hvalid.
  destruct (run_chain_returns (logged_contract rs contract) y x h
              (Z.to_nat K) s0 (logged_world s log g) Hlen Hvalid Htau)
    as (trace & w' & Hrun & Hl & _).
  destruct (logged_run_chain y x h _ s0 trace s log g w' Hlen Hrun)
    as (s' & ->).
  exists trace, s'. split.
  - rewrite (gibbs_run_chain y x K init hypers s0 h) by assumption.
    exact Hrun.
  - rewrite length_chain_calls, Hl. reflexivity.
Qed.

Lemma X16_witness :
  numpy_contract mean_source
  /\ length [1; 3] = length [0; 1]
  /\ (0 <= 2)%Z
  /\ holds_init init (0, 0, 2)
  /\ 0 < (0, 0, 2).2
  /\ holds_hypers hypers notebook_hyperparameters
  /\ valid_hypers notebook_hyperparameters
  /\ exists (trace : list row) (s' : rng mean_source),
       gibbs (rs := logged mean_source) (env := unit) [1; 3] [0; 1] 2
         init hypers (logged_world (0%nat : rng mean_source) [] tt)
       = (Ok trace,
          logged_world s'
            ([] ++ chain_calls [1; 3] [0; 1] notebook_hyperparameters
                     (0, 0, 2) trace) tt)
       /\ length (chain_calls [1; 3] [0; 1] notebook_hyperparameters
                    (0, 0, 2) trace)
          = (3 * Z.to_nat 2)%nat.
Proof.
  assert (Hpos : 0 < (0, 0, 2).2) by (simpl; lra).
  assert (HK : (0 <= 2)%Z) by lia.
  repeat (split; [first [exact mean_source_contract | reflexivity | exact HK
                        | exact holds_init_notebook | exact Hpos
                        | exact holds_hypers_notebook
                        | exact valid_hypers_notebook]|]).
  exact (@X16_gibbs_generator_requests mean_source unit [1; 3] [0; 1] 2
           init hypers (0, 0, 2) notebook_hyperparameters
           (0%nat : rng mean_source) [] tt
           mean_source_contract eq_refl HK holds_init_notebook Hpos
           holds_hypers_notebook valid_hypers_notebook).
Defined.

(** ** Further properties: the notebook's script *)

Section Script.
Context {rs : RandomSource} {env : Type} (us : UniformSource rs).
Hypothesis contract : numpy_contract rs.
Hypothesis uniform_returns : forall low high s,
  low < high -> exists v s', uniform us low high s = (Ok v, s').

Lemma np_random_uniform_size_returns (low high : R) (n : nat) :
  low < high ->
  forall w : world rs env,
    exists xs w',
      np_random_uniform_size us low high n w = (Ok xs, w') /\ length xs = n.
Proof.
  intros Hlh. induction n as [|n IH]; intros w.
  - exists [], w. split; reflexivity.
  - cbn [np_random_uniform_size]. rewrite bind_run.
    unfold np_random_uniform at 1.
    destruct (uniform_returns low high (np_random w) Hlh) as (v & s' & ->).
    destruct (IH (World s' (globals w))) as (xs & w' & E & Hl).
    rewrite bind_run, E. exists (v :: xs), w'.
    split; [reflexivity | simpl; lia].
Qed.

Lemma draws_returns (ps : list (R * R)) :
  Forall (fun p => 0 < p.2) ps ->
  forall w : world rs env,
    exists vs w', Draft.draws ps w = (Ok vs, w') /\ length vs = length ps.
Proof.
  induction 1 as [|p ps Hp _ IH]; intros w.
  - exists [], w. split; reflexivity.
  - cbn [Draft.draws]. rewrite bind_run.
    destruct (np_random_normal_returns contract p.1 p.2 w Hp) as (v & w1 & ->).
    destruct (IH w1) as (vs & w' & E & Hl).
    rewrite bind_run, E. exists (v :: vs), w'.
    split; [reflexivity | simpl; lia].
Qed.

Lemma np_random_normal_array_returns (loc : ndarray) (scale : R) :
  0 < scale ->
  forall w : world rs env,
    exists ys w',
      np_random_normal_array loc scale w = (Ok ys, w')
      /\ length ys = length loc.
Proof.
  intros Hs w. unfold np_random_normal_array.
  destruct (draws_returns ((fun m => (m, scale)) <$> loc)) with (w := w)
    as (ys & w' & E & Hl).
  - apply Forall_fmap, Forall_forall. intros m _. exact Hs.
  - exists ys, w'. rewrite length_fmap in Hl. split; assumption.
Qed.

Lemma synthetic_data_returns (w : world rs env) :
  exists x y w',
    Notebook.synthetic_data us w = (Ok (x, y), w')
    /\ length x = Notebook.N /\ length y = Notebook.N.
Proof.
  unfold Notebook.synthetic_data.
  destruct (np_random_uniform_size_returns 0 4 Notebook.N ltac:(lra) w)
    as (x & w1 & E1 & Hx).
  rewrite bind_run, E1.
  assert (Hs : 0 < 1 / sqrt Notebook.tau_true)
    by (apply inv_sqrt_pos; unfold Notebook.tau_true; lra).
  destruct (np_random_normal_array_returns
              (Rplus Notebook.beta_0_true <$> (Rmult Notebook.beta_1_true <$> x))
              _ Hs w1) as (y & w2 & E2 & Hy).
  rewrite bind_run, E2. exists x, y, w2.
  rewrite !length_fmap in Hy. repeat split; congruence.
Qed.
End Script.

(** X17: the notebook's script runs through.  Whatever the generator
    state, the synthetic-data cell returns [x] and [y] of 50 elements
    each, so the length assertion of [gibbs] holds, and the run with the
    notebook's [init], [hypers] and 1000 iterations returns a trace of
    1000 rows with strictly positive precisions. *)
Theorem X17_notebook_script_runs {rs env} (us : UniformSource rs)
    (w : world rs env) :
  numpy_contract rs ->
  (forall low high s,
      low < high -> exists v s', uniform us low high s = (Ok v, s')) ->
  (exists x y w1,
      Notebook.synthetic_data us w = (Ok (x, y), w1)
      /\ length x = 50%nat /\ length y = 50%nat)
  /\ (exists trace w',
         Notebook.main us w = (Ok trace, w')
         /\ length trace = 1000%nat
         /\ Forall (fun r : row => 0 < r.2) trace).
Proof.
  intros contract Hu.
  destruct (synthetic_data_returns us contract Hu w)
    as (x & y & w1 & Hdata & Hx & Hy).
  split; [exists x, y, w1; auto|].
  unfold Notebook.main. rewrite bind_run, Hdata. cbn [fst snd].
  assert (Hlen : length y = length x) by congruence.
  assert (Hpos : 0 < (0, 0, 2).2) by (simpl; lra).
  destruct (run_chain_returns contract y x notebook_hyperparameters
              (Z.to_nat Notebook.iters) (0, 0, 2) w1 Hlen
              valid_hypers_notebook Hpos)
    as (trace & w' & Hrun & Hl & Hall).
  exists trace, w'. split; [|split; [exact Hl | exact Hall]].
  rewrite (gibbs_run_chain y x Notebook.iters init hypers (0, 0, 2)
             notebook_hyperparameters)
    by first [exact Hlen | exact holds_init_notebook
             | exact holds_hypers_notebook | unfold Notebook.iters; lia].
  exact Hrun.
Qed.

Lemma mean_uniform_returns : forall low high (s : rng mean_source),
  low < high -> exists v s', uniform mean_uniform low high s = (Ok v, s').
Proof. intros low high s _. simpl. eauto. Qed.

Lemma X17_witness :
  numpy_contract mean_source
  /\ (forall low high (s : rng mean_source),
         low < high ->
         exists v s', uniform mean_uniform low high s = (Ok v, s'))
  /\ exists trace w',
       Notebook.main mean_uniform (after_draws 0) = (Ok trace, w')
       /\ length trace = 1000%nat
       /\ Forall (fun r : row => 0 < r.2) trace.
Proof.
  split; [exact mean_source_contract|].
  split; [exact mean_uniform_returns|].
  exact (proj2 (@X17_notebook_script_runs mean_source unit mean_uniform
                  (after_draws 0) mean_source_contract mean_uniform_returns)).
Defined.
